(** * World-state manager of the ledger: [openchain/ledger/statemgmt/state/state.go]

    A shallow embedding of the Go type [State] and of its methods, together
    with the history-key codec, followed by the properties of the manager
    that the specification states. *)

From stdpp Require Import gmap strings list.
From coqutil Require Import Byte.
From Stdlib Require Import ZArith Lia.

Local Open Scope Z_scope.

(** ** Go base types *)

#[global] Instance byte_eq_dec : EqDecision byte := Byte.byte_eq_dec.
#[global] Instance byte_countable : Countable byte :=
  inj_countable Byte.to_N Byte.of_N Byte.of_to_N.

(** A Go [[]byte] is either the nil slice or a (possibly empty) slice. *)
Abbreviation GoBytes := (option (list byte)).

(** A Go [error] value that is not nil; a result of type [error] is an
    [option error], [None] being Go's nil. *)
Abbreviation error := string (only parsing).

(** [uint64]: an integer in [[0, 2^64)]; arithmetic wraps around. *)
Definition is_uint64 (n : Z) : Prop := 0 <= n < 2 ^ 64.
Definition wrap64 (z : Z) : Z := z mod 2 ^ 64.

(** ** The history key codec (state.go, lines 234-250) *)

(** [binary.BigEndian.PutUint64(b, v)] of Go's standard library: a bounds
    check on [b[7]] (a run-time panic, here [None], when [len(b) < 8]),
    then eight stores [b[i] = byte(v >> (56 - 8i))]. *)
Definition BigEndian_PutUint64 (b : list byte) (v : Z) : option (list byte) :=
  if decide (length b < 8)%nat then None
  else
    let b := <[0%nat := byte.of_Z (v ≫ 56)]> b in
    let b := <[1%nat := byte.of_Z (v ≫ 48)]> b in
    let b := <[2%nat := byte.of_Z (v ≫ 40)]> b in
    let b := <[3%nat := byte.of_Z (v ≫ 32)]> b in
    let b := <[4%nat := byte.of_Z (v ≫ 24)]> b in
    let b := <[5%nat := byte.of_Z (v ≫ 16)]> b in
    let b := <[6%nat := byte.of_Z (v ≫ 8)]> b in
    let b := <[7%nat := byte.of_Z v]> b in
    Some b.

(** [binary.BigEndian.Uint64(b)]: the same bounds check, then
    [uint64(b[7]) | uint64(b[6])<<8 | ... | uint64(b[0])<<56], every shift
    taken in 64 bits. *)
Definition BigEndian_Uint64 (b : list byte) : option Z :=
  match b with
  | b0 :: b1 :: b2 :: b3 :: b4 :: b5 :: b6 :: b7 :: _ =>
      let u (x : byte) (k : Z) := wrap64 (byte.unsigned x ≪ k) in
      Some (Z.lor (Z.lor (Z.lor (Z.lor (Z.lor (Z.lor (Z.lor
              (byte.unsigned b7) (u b6 8)) (u b5 16)) (u b4 24))
              (u b3 32)) (u b2 40)) (u b1 48)) (u b0 56))
  | _ => None
  end.

(** [make([]byte, 8)] followed by [PutUint64]; the slice has length 8, so
    the bounds check of [PutUint64] cannot fire (lemma
    [encodeUint64_PutUint64] below). *)
Definition encodeUint64 (number : Z) : list byte :=
  let bytes := replicate 8 Byte.x00 in
  match BigEndian_PutUint64 bytes number with
  | Some bytes' => bytes'
  | None => bytes
  end.

(** [None] is the run-time panic of [Uint64] on a key shorter than 8 bytes. *)
Definition decodeToUint64 (bytes : list byte) : option Z :=
  BigEndian_Uint64 bytes.

Definition encodeStateDeltaKey (blockNumber : Z) : list byte :=
  encodeUint64 blockNumber.

Definition decodeStateDeltaKey (dbkey : list byte) : option Z :=
  decodeToUint64 dbkey.

(** Lexicographic order on byte strings, bytes compared as unsigned numbers
    and a proper prefix before its extensions: the order of [bytes.Compare]
    and of the store's default key comparator. *)
Fixpoint bytes_compare (a b : list byte) : comparison :=
  match a, b with
  | [], [] => Eq
  | [], _ :: _ => Lt
  | _ :: _, [] => Gt
  | x :: a', y :: b' =>
      match byte.unsigned x ?= byte.unsigned y with
      | Eq => bytes_compare a' b'
      | c => c
      end
  end.

(** The number a byte string denotes when read most significant byte first. *)
Fixpoint be_value (l : list byte) : Z :=
  match l with
  | [] => 0
  | x :: l' => byte.unsigned x * 256 ^ Z.of_nat (length l') + be_value l'
  end.

(** The two forms of a Go map lookup on a [map[string][]byte]: the index
    expression [m[k]], which gives the zero value (nil) for a missing key, and
    the form [v, ok := m[k]], which also reports whether the key is present. *)
Definition map_index (m : gmap string GoBytes) (k : string) : GoBytes :=
  default None (m !! k).

Definition map_index_ok (m : gmap string GoBytes) (k : string) : GoBytes * bool :=
  (default None (m !! k), bool_decide (is_Some (m !! k))).

(** ** Collaborators

    The packages [statemgmt], [buckettree], [db] and [gorocksdb] are not
    among the sources embedded here.  Their types are taken as parameters, with the
    operations that state.go calls on them; whatever the manager does is
    proved for every implementation of these interfaces. *)

(** [statemgmt.StateDelta] and [statemgmt.UpdatedValue].  A [*StateDelta] is
    represented by the value it points to: the operations that mutate their
    receiver in place ([Set], [Delete], [ApplyChanges], [Unmarshal]) return
    the receiver's new value, and leave their arguments as they are.  A
    [*UpdatedValue] that is nil is [None]. *)
Class StateDeltaOps : Type := {
  StateDelta : Type;
  UpdatedValue : Type;
  NewStateDelta : StateDelta;
  StateDelta_Get : StateDelta → string → string → option UpdatedValue;
  UpdatedValue_GetValue : UpdatedValue → GoBytes;
  StateDelta_Set : StateDelta → string → string → GoBytes → StateDelta;
  StateDelta_Delete : StateDelta → string → string → StateDelta;
  StateDelta_IsEmpty : StateDelta → bool;
  StateDelta_ApplyChanges : StateDelta → StateDelta → StateDelta;
  StateDelta_ComputeCryptoHash : StateDelta → GoBytes;
  StateDelta_Marshal : StateDelta → GoBytes;
  StateDelta_Unmarshal : StateDelta → GoBytes → StateDelta
}.

(** Column families of the key-value store.  state.go names only
    [StateDeltaCF], the family of the per-block history entries. *)
Inductive ColumnFamily : Type :=
| StateDeltaCF
| OtherCF (name : string).

#[global] Instance ColumnFamily_eq_dec : EqDecision ColumnFamily.
Proof. solve_decision. Defined.

(** [gorocksdb.WriteBatch]: the put and delete operations staged so far,
    oldest first. *)
Inductive BatchOp : Type :=
| PutCF (cf : ColumnFamily) (key : list byte) (value : GoBytes)
| DeleteCF (cf : ColumnFamily) (key : list byte).

Abbreviation WriteBatch := (list BatchOp).

(** [statemgmt.HashableState], the interface behind [State.stateImpl].
    [Impl] is the state of the object the interface value points to; every
    method may change it, so every method returns its new value. *)
Class HashableState `{StateDeltaOps} : Type := {
  Impl : Type;
  HashableState_Initialize : Impl → option error * Impl;
  HashableState_Get : Impl → string → string → (GoBytes * option error) * Impl;
  HashableState_PrepareWorkingSet : Impl → StateDelta → Impl;
  HashableState_ComputeCryptoHash : Impl → (GoBytes * option error) * Impl;
  HashableState_ClearWorkingSet : Impl → Impl;
  HashableState_AddChangesForPersistence : Impl → WriteBatch → WriteBatch * Impl
}.

(** [db.OpenchainDB], the handle that [db.GetDBHandle()] returns, with the
    one read that state.go performs on it. *)
Class OpenchainDB : Type := {
  DBHandle : Type;
  GetFromStateDeltaCF : DBHandle → list byte → GoBytes * option error
}.

(** ** The manager *)

(** [var historyStateDeltaSize = uint64(500)] *)
Definition historyStateDeltaSize : Z := 500.

Section Manager.
Context {SD : StateDeltaOps} {HS : HashableState}.

(** The calls the manager makes on [stateImpl], as a recording test double
    would see them. *)
Inductive ImplCall : Type :=
| CallInitialize
| CallGet (chaincodeID key : string)
| CallPrepareWorkingSet (delta : StateDelta)
| CallComputeCryptoHash
| CallClearWorkingSet
| CallAddChangesForPersistence.

(** [type State struct].  [implCalls] is not a field of the Go struct: it
    is the log of the calls made on [stateImpl], most recent first, kept to
    count them. *)
Record State : Type := mkState {
  stateImpl : Impl;
  stateDelta : StateDelta;
  currentTxStateDelta : StateDelta;
  currentTxUUID : string;
  txStateDeltaHash : gmap string GoBytes;
  updateStateImpl : bool;
  implCalls : list ImplCall
}.

Definition set_stateImpl (v : Impl) (s : State) : State :=
  mkState v (stateDelta s) (currentTxStateDelta s) (currentTxUUID s)
    (txStateDeltaHash s) (updateStateImpl s) (implCalls s).
Definition set_stateDelta (v : StateDelta) (s : State) : State :=
  mkState (stateImpl s) v (currentTxStateDelta s) (currentTxUUID s)
    (txStateDeltaHash s) (updateStateImpl s) (implCalls s).
Definition set_currentTxStateDelta (v : StateDelta) (s : State) : State :=
  mkState (stateImpl s) (stateDelta s) v (currentTxUUID s)
    (txStateDeltaHash s) (updateStateImpl s) (implCalls s).
Definition set_currentTxUUID (v : string) (s : State) : State :=
  mkState (stateImpl s) (stateDelta s) (currentTxStateDelta s) v
    (txStateDeltaHash s) (updateStateImpl s) (implCalls s).
Definition set_txStateDeltaHash (v : gmap string GoBytes) (s : State) : State :=
  mkState (stateImpl s) (stateDelta s) (currentTxStateDelta s) (currentTxUUID s)
    v (updateStateImpl s) (implCalls s).
Definition set_updateStateImpl (v : bool) (s : State) : State :=
  mkState (stateImpl s) (stateDelta s) (currentTxStateDelta s) (currentTxUUID s)
    (txStateDeltaHash s) v (implCalls s).
Definition log_call (c : ImplCall) (s : State) : State :=
  mkState (stateImpl s) (stateDelta s) (currentTxStateDelta s) (currentTxUUID s)
    (txStateDeltaHash s) (updateStateImpl s) (c :: implCalls s).

(** A method either returns, or panics with a value; both leave the
    manager in some state, the one reached when the method stopped. *)
Inductive outcome (A : Type) : Type :=
| Returns (a : A) (s : State)
| Panics (v : string) (s : State).
Arguments Returns {A} a s.
Arguments Panics {A} v s.

Definition M (A : Type) : Type := State → outcome A.

#[global] Instance M_ret : MRet M := λ A a s, Returns a s.
#[global] Instance M_bind : MBind M := λ A B f m s,
  match m s with
  | Returns a s' => f a s'
  | Panics v s' => Panics v s'
  end.

Definition gets {A} (f : State → A) : M A := λ s, Returns (f s) s.
Definition modify (f : State → State) : M unit := λ s, Returns tt (f s).
Definition panic {A} (v : string) : M A := λ s, Panics v s.

(** The state a method stops in, and whether it panicked. *)
Definition final {A} (o : outcome A) : State :=
  match o with Returns _ s => s | Panics _ s => s end.
Definition panicked {A} (o : outcome A) : bool :=
  match o with Returns _ _ => false | Panics _ _ => true end.

(** Calls through the interface value [state.stateImpl]. *)
Definition stateImpl_Get (chaincodeID key : string) : M (GoBytes * option error) :=
  λ s, let '(r, i) := HashableState_Get (stateImpl s) chaincodeID key in
       Returns r (log_call (CallGet chaincodeID key) (set_stateImpl i s)).
Definition stateImpl_PrepareWorkingSet (delta : StateDelta) : M unit :=
  modify (λ s, log_call (CallPrepareWorkingSet delta)
                 (set_stateImpl (HashableState_PrepareWorkingSet (stateImpl s) delta) s)).
Definition stateImpl_ComputeCryptoHash : M (GoBytes * option error) :=
  λ s, let '(r, i) := HashableState_ComputeCryptoHash (stateImpl s) in
       Returns r (log_call CallComputeCryptoHash (set_stateImpl i s)).
Definition stateImpl_ClearWorkingSet : M unit :=
  modify (λ s, log_call CallClearWorkingSet
                 (set_stateImpl (HashableState_ClearWorkingSet (stateImpl s)) s)).
Definition stateImpl_AddChangesForPersistence (writeBatch : WriteBatch) : M WriteBatch :=
  λ s, let '(wb, i) := HashableState_AddChangesForPersistence (stateImpl s) writeBatch in
       Returns wb (log_call CallAddChangesForPersistence (set_stateImpl i s)).

(** [func NewState() *State], as a function of the package-level
    [stateImpl]: the new manager, or the value it panics with. *)
Definition NewState (impl : Impl) : State + string :=
  let '(err, impl) := HashableState_Initialize impl in
  match err with
  | Some e => inr ("Error during initialization of state implementation: " +:+ e)
  | None => inl (mkState impl NewStateDelta NewStateDelta "" ∅ false [CallInitialize])
  end.

(** [func (state *State) txInProgress() bool] *)
Definition txInProgress : M bool :=
  cur ← gets currentTxUUID;
  mret (bool_decide (cur ≠ ""%string)).

(** [func (state *State) TxBegin(txUUID string)] *)
Definition TxBegin (txUUID : string) : M unit :=
  inProgress ← txInProgress;
  if inProgress : bool then
    cur ← gets currentTxUUID;
    panic ("A tx [" +:+ cur
           +:+ "] is already in progress. Received call for begin of another tx ["
           +:+ txUUID +:+ "]")
  else
    modify (set_currentTxUUID txUUID).

(** [func (state *State) TxFinish(txUUID string, txSuccessful bool)] *)
Definition TxFinish (txUUID : string) (txSuccessful : bool) : M unit :=
  cur ← gets currentTxUUID;
  (if bool_decide (cur ≠ txUUID) then
     panic ("Different Uuid in tx-begin [" +:+ cur +:+ "] and tx-finish ["
            +:+ txUUID +:+ "]")
   else mret tt);;
  (if txSuccessful then
     txDelta ← gets currentTxStateDelta;
     if negb (StateDelta_IsEmpty txDelta) then
       modify (λ s, set_stateDelta
                      (StateDelta_ApplyChanges (stateDelta s) (currentTxStateDelta s)) s);;
       modify (λ s, set_txStateDeltaHash
                      (<[txUUID := StateDelta_ComputeCryptoHash (currentTxStateDelta s)]>
                         (txStateDeltaHash s)) s);;
       modify (set_updateStateImpl true)
     else
       modify (λ s, set_txStateDeltaHash (<[txUUID := None]> (txStateDeltaHash s)) s)
   else mret tt);;
  modify (set_currentTxStateDelta NewStateDelta);;
  modify (set_currentTxUUID "").

(** [func (state *State) Get(chaincodeID string, key string, committed bool) ([]byte, error)]:
    the two in-memory lookups return early; otherwise control reaches the
    final [return state.stateImpl.Get(chaincodeID, key)]. *)
Definition Get (chaincodeID key : string) (committed : bool)
  : M (GoBytes * option error) :=
  early ← (if negb committed then
             txDelta ← gets currentTxStateDelta;
             match StateDelta_Get txDelta chaincodeID key with
             | Some valueHolder =>
                 mret (Some (UpdatedValue_GetValue valueHolder, None))
             | None =>
                 delta ← gets stateDelta;
                 match StateDelta_Get delta chaincodeID key with
                 | Some valueHolder =>
                     mret (Some (UpdatedValue_GetValue valueHolder, None))
                 | None => mret None
                 end
             end
           else mret None);
  match early with
  | Some r => mret r
  | None => stateImpl_Get chaincodeID key
  end.

(** [func (state *State) Set(chaincodeID string, key string, value []byte) error];
    [Set] is a reserved word, hence the underscore. *)
Definition Set_ (chaincodeID key : string) (value : GoBytes) : M (option error) :=
  inProgress ← txInProgress;
  (if negb inProgress then panic "State can be changed only in context of a tx."
   else mret tt);;
  modify (λ s, set_currentTxStateDelta
                 (StateDelta_Set (currentTxStateDelta s) chaincodeID key value) s);;
  mret None.

(** [func (state *State) Delete(chaincodeID string, key string) error] *)
Definition Delete (chaincodeID key : string) : M (option error) :=
  inProgress ← txInProgress;
  (if negb inProgress then panic "State can be changed only in context of a tx."
   else mret tt);;
  modify (λ s, set_currentTxStateDelta
                 (StateDelta_Delete (currentTxStateDelta s) chaincodeID key) s);;
  mret None.

(** [func (state *State) GetHash() ([]byte, error)] *)
Definition GetHash : M (GoBytes * option error) :=
  update ← gets updateStateImpl;
  (if update : bool then
     delta ← gets stateDelta;
     stateImpl_PrepareWorkingSet delta;;
     modify (set_updateStateImpl false)
   else mret tt);;
  '(hash, err) ← stateImpl_ComputeCryptoHash;
  match err with
  | Some e => mret (None, Some e)
  | None => mret (hash, None)
  end.

(** [func (state *State) GetTxStateDeltaHash() map[string][]byte] *)
Definition GetTxStateDeltaHash : M (gmap string GoBytes) :=
  gets txStateDeltaHash.

(** [func (state *State) ClearInMemoryChanges()] *)
Definition ClearInMemoryChanges : M unit :=
  modify (set_stateDelta NewStateDelta);;
  modify (set_txStateDeltaHash ∅);;
  stateImpl_ClearWorkingSet.

(** [func (state *State) getStateDelta() *statemgmt.StateDelta] *)
Definition getStateDelta : M StateDelta := gets stateDelta.

(** [func (state *State) AddChangesForPersistence(blockNumber uint64, writeBatch *gorocksdb.WriteBatch)]:
    the batch is passed in and mutated in place, so the method returns the
    batch as it is afterwards.  The subtraction is the one of [uint64]. *)
Definition AddChangesForPersistence (blockNumber : Z) (writeBatch : WriteBatch)
  : M WriteBatch :=
  update ← gets updateStateImpl;
  (if update : bool then
     delta ← gets stateDelta;
     stateImpl_PrepareWorkingSet delta;;
     modify (set_updateStateImpl false)
   else mret tt);;
  writeBatch ← stateImpl_AddChangesForPersistence writeBatch;
  delta ← gets stateDelta;
  let serializedStateDelta := StateDelta_Marshal delta in
  let cf := StateDeltaCF in
  let writeBatch :=
    writeBatch ++ [PutCF cf (encodeStateDeltaKey blockNumber) serializedStateDelta] in
  if bool_decide (blockNumber >= historyStateDeltaSize) then
    let blockNumberToDelete := wrap64 (blockNumber - historyStateDeltaSize) in
    mret (writeBatch ++ [DeleteCF cf (encodeStateDeltaKey blockNumberToDelete)])
  else
    mret writeBatch.

(** [func (state *State) FetchStateDeltaFromDB(blockNumber uint64)], which returns
    a pointer to a [StateDelta] (nil is [None]) and an [error]:
    it reads the database handle and none of the manager's fields. *)
Definition FetchStateDeltaFromDB {DB : OpenchainDB} (db : DBHandle) (blockNumber : Z)
  : option StateDelta * option error :=
  let '(stateDeltaBytes, err) := GetFromStateDeltaCF db (encodeStateDeltaKey blockNumber) in
  match err with
  | Some e => (None, Some e)
  | None =>
      match stateDeltaBytes with
      | None => (None, None)
      | Some _ =>
          let stateDelta := NewStateDelta in
          let stateDelta := StateDelta_Unmarshal stateDelta stateDeltaBytes in
          (Some stateDelta, None)
      end
  end.

(** *** Call counts and the history log *)

Definition is_PrepareWorkingSet (c : ImplCall) : bool :=
  match c with CallPrepareWorkingSet _ => true | _ => false end.

(** How many times [PrepareWorkingSet] has been called on [stateImpl]. *)
Definition prepareCount (s : State) : nat :=
  length (List.filter is_PrepareWorkingSet (implCalls s)).

(** The state after the lazy preparation that opens both [GetHash] and
    [AddChangesForPersistence]. *)
Definition prepared (s : State) : State :=
  if updateStateImpl s then
    set_updateStateImpl false
      (log_call (CallPrepareWorkingSet (stateDelta s))
         (set_stateImpl (HashableState_PrepareWorkingSet (stateImpl s) (stateDelta s)) s))
  else s.

End Manager.

Arguments Returns {_ _ _} a s.
Arguments Panics {_ _ _} v s.

(** Modelled from the spec: the key-value storage engine, an atomic write
    batch of put and delete operations committed by one durable write.  The
    history log is the content of the column family [StateDeltaCF], a map
    from keys to stored values; committing a batch applies its operations
    on that family in the order they were staged, and a nil value is stored
    as the empty value. *)
Definition history_apply (log : gmap (list byte) (list byte)) (op : BatchOp)
  : gmap (list byte) (list byte) :=
  match op with
  | PutCF StateDeltaCF key value => <[key := default [] value]> log
  | DeleteCF StateDeltaCF key => delete key log
  | _ => log
  end.

Definition history_commit (writeBatch : WriteBatch) (log : gmap (list byte) (list byte))
  : gmap (list byte) (list byte) :=
  foldl history_apply log writeBatch.

(** The log holds entries only for blocks among the [historyStateDeltaSize]
    blocks that precede block [n]. *)
Definition history_in_window (n : Z) (log : gmap (list byte) (list byte)) : Prop :=
  ∀ key, is_Some (log !! key) →
    ∃ m, key = encodeStateDeltaKey m ∧ 0 <= m ∧ n - historyStateDeltaSize <= m < n.

Section Ledger.
Context {SD : StateDeltaOps} {HS : HashableState}.

(** One block of the ledger: the changes of block [blockNumber] are staged
    into a fresh batch by the manager in state [s], and the batch is
    committed. *)
Definition stage_and_commit (s : State) (blockNumber : Z)
           (log : gmap (list byte) (list byte)) : gmap (list byte) (list byte) :=
  match AddChangesForPersistence blockNumber [] s with
  | Returns writeBatch _ => history_commit writeBatch log
  | Panics _ _ => log
  end.

(** A run of blocks, each with the state the manager is in when the block
    is staged. *)
Definition history_of (blocks : list (Z * State))
           (log : gmap (list byte) (list byte)) : gmap (list byte) (list byte) :=
  foldl (λ log b, stage_and_commit b.2 b.1 log) log blocks.

(** The collaborator stages nothing that touches the history log. *)
Definition impl_leaves_history : Prop :=
  ∀ (i : Impl) (wb : WriteBatch) log,
    history_commit (HashableState_AddChangesForPersistence i wb).1 log
    = history_commit wb log.

(** Computing the root hash twice in a row gives the same result twice. *)
Definition hash_repeatable : Prop :=
  ∀ i : Impl,
    (HashableState_ComputeCryptoHash (HashableState_ComputeCryptoHash i).2).1
    = (HashableState_ComputeCryptoHash i).1.

End Ledger.

(** ** State transfer and wholesale deletion *)

(** The writes that state.go performs on the handle of [db.GetDBHandle()]:
    [DB.Write(opt, writeBatch)] and [DeleteState()].  Both may change the
    database, so both return its new value beside their [error]. *)
Class OpenchainDBWrites {DB : OpenchainDB} : Type := {
  DB_Write : DBHandle → WriteBatch → option error * DBHandle;
  DB_DeleteState : DBHandle → option error * DBHandle
}.

Section StateTransfer.
Context {SD : StateDeltaOps} {HS : HashableState}.
Context {DB : OpenchainDB} {DBW : OpenchainDBWrites}.

(** [func (state *State) ApplyStateDelta(delta *statemgmt.StateDelta) error]:
    the database is the package-level handle, passed in and returned beside
    the method's [error]. *)
Definition ApplyStateDelta (delta : StateDelta) (db : DBHandle)
  : M (option error * DBHandle) :=
  stateImpl_PrepareWorkingSet delta;;
  let writeBatch : WriteBatch := [] in
  writeBatch ← stateImpl_AddChangesForPersistence writeBatch;
  let '(err, db) := DB_Write db writeBatch in
  match err with
  | Some e => mret (Some e, db)
  | None => mret (None, db)
  end.

(** [func (state *State) DeleteState() error] *)
Definition DeleteState (db : DBHandle) : M (option error * DBHandle) :=
  ClearInMemoryChanges;;
  let '(err, db) := DB_DeleteState db in
  mret (err, db).

End StateTransfer.

(** ** Sequences of calls *)

Section Driver.
Context {SD : StateDeltaOps} {HS : HashableState}.

(** A call of one of the manager's methods, as a block-processing driver
    issues them. *)
Inductive Op : Type :=
| OpTxBegin (txUUID : string)
| OpTxFinish (txUUID : string) (txSuccessful : bool)
| OpSet (chaincodeID key : string) (value : GoBytes)
| OpDelete (chaincodeID key : string)
| OpGet (chaincodeID key : string) (committed : bool)
| OpGetHash
| OpClearInMemoryChanges
| OpAddChangesForPersistence (blockNumber : Z) (writeBatch : WriteBatch).

Definition run_op (op : Op) : M unit :=
  match op with
  | OpTxBegin txUUID => TxBegin txUUID
  | OpTxFinish txUUID txSuccessful => TxFinish txUUID txSuccessful
  | OpSet chaincodeID key value => Set_ chaincodeID key value;; mret tt
  | OpDelete chaincodeID key => Delete chaincodeID key;; mret tt
  | OpGet chaincodeID key committed => Get chaincodeID key committed;; mret tt
  | OpGetHash => GetHash;; mret tt
  | OpClearInMemoryChanges => ClearInMemoryChanges
  | OpAddChangesForPersistence blockNumber writeBatch =>
      AddChangesForPersistence blockNumber writeBatch;; mret tt
  end.

(** The calls are made in order; a panic ends the run. *)
Fixpoint run_ops (ops : list Op) : M unit :=
  match ops with
  | [] => mret tt
  | op :: ops => run_op op;; run_ops ops
  end.

Definition is_write (op : Op) : bool :=
  match op with OpSet _ _ _ | OpDelete _ _ => true | _ => false end.

Definition is_tx_op (op : Op) : bool :=
  match op with
  | OpTxBegin _ | OpTxFinish _ _ | OpSet _ _ _ | OpDelete _ _ => true
  | _ => false
  end.

Definition is_flush (op : Op) : bool :=
  match op with OpGetHash | OpAddChangesForPersistence _ _ => true | _ => false end.

Definition is_read_or_flush (op : Op) : bool :=
  match op with
  | OpGet _ _ _ | OpGetHash | OpAddChangesForPersistence _ _ => true
  | _ => false
  end.

(** What a method returned, if it did. *)
Definition result {A} (o : outcome A) : option A :=
  match o with Returns a _ => Some a | Panics _ _ => None end.

(** The working set the store holds according to the calls made on it, most
    recent first: the delta of the last [PrepareWorkingSet], unless a
    [ClearWorkingSet] came after it. *)
Fixpoint working_set_of (calls : list ImplCall) : option StateDelta :=
  match calls with
  | [] => None
  | CallPrepareWorkingSet delta :: _ => Some delta
  | CallClearWorkingSet :: _ => None
  | _ :: calls => working_set_of calls
  end.

(** What a [Set] or a [Delete] does to the transaction delta. *)
Definition write_to (delta : StateDelta) (op : Op) : StateDelta :=
  match op with
  | OpSet chaincodeID key value => StateDelta_Set delta chaincodeID key value
  | OpDelete chaincodeID key => StateDelta_Delete delta chaincodeID key
  | _ => delta
  end.

(** Outside a transaction the transaction delta is the empty delta. *)
Definition tx_delta_clean (s : State) : Prop :=
  currentTxUUID s = ""%string → currentTxStateDelta s = NewStateDelta.

(** When the dirty flag is clear, the store's working set is the aggregate
    delta, or the store has no working set and the aggregate delta is the
    empty delta. *)
Definition working_set_current (s : State) : Prop :=
  updateStateImpl s = false →
  working_set_of (implCalls s) = Some (stateDelta s)
  ∨ (working_set_of (implCalls s) = None ∧ stateDelta s = NewStateDelta).

End Driver.

(** ** Test doubles

    In-memory implementations of the collaborators, to run the manager on
    concrete inputs. *)
Module Double.

(** Modelled from the spec: a state delta is a mapping from (namespace, key)
    to a recorded change, a value set or a deletion (the nil value); merging
    another delta in is last-write-wins. *)
Abbreviation Delta := (gmap (string * string) GoBytes).

Definition frame (b : list byte) : list byte :=
  byte.of_Z (Z.of_nat (length b)) :: b.

Definition unframe (l : list byte) : option (list byte * list byte) :=
  match l with
  | [] => None
  | n :: r =>
      let k := Z.to_nat (byte.unsigned n) in
      if decide (k ≤ length r)%nat then Some (take k r, drop k r) else None
  end.

Definition encode_entry (e : (string * string) * GoBytes) : list byte :=
  frame (String.list_byte_of_string e.1.1) ++ frame (String.list_byte_of_string e.1.2)
  ++ match e.2 with
     | None => [Byte.x00]
     | Some v => Byte.x01 :: frame v
     end.

Definition marshal (d : Delta) : list byte :=
  concat (encode_entry <$> map_to_list d).

Fixpoint decode_entries (fuel : nat) (l : list byte) : list ((string * string) * GoBytes) :=
  match fuel with
  | O => []
  | S fuel =>
      match unframe l with
      | None => []
      | Some (cc, l) =>
          match unframe l with
          | None => []
          | Some (k, l) =>
              let id := (String.string_of_list_byte cc, String.string_of_list_byte k) in
              match l with
              | [] => []
              | tag :: l =>
                  if decide (tag = Byte.x00) then (id, None) :: decode_entries fuel l
                  else match unframe l with
                       | None => []
                       | Some (v, l) => (id, Some v) :: decode_entries fuel l
                       end
              end
          end
      end
  end.

Definition unmarshal (d : Delta) (b : GoBytes) : Delta :=
  let l := default [] b in
  list_to_map (decode_entries (length l) l) ∪ d.

(** The hash of a delta is stood for by its serialized form: deterministic,
    and nil for no delta at all only. *)
#[export] Instance delta : StateDeltaOps := {|
  StateDelta := Delta;
  UpdatedValue := GoBytes;
  NewStateDelta := ∅;
  StateDelta_Get d chaincodeID key := d !! (chaincodeID, key);
  UpdatedValue_GetValue v := v;
  StateDelta_Set d chaincodeID key value := <[(chaincodeID, key) := value]> d;
  StateDelta_Delete d chaincodeID key := <[(chaincodeID, key) := None]> d;
  StateDelta_IsEmpty d := bool_decide (map_to_list d = []);
  StateDelta_ApplyChanges d other := other ∪ d;
  StateDelta_ComputeCryptoHash d := Some (marshal d);
  StateDelta_Marshal d := Some (marshal d);
  StateDelta_Unmarshal := unmarshal
|}.

(** Modelled from the spec: the hashable state store holds the persisted
    key/value data, accepts a delta as its working set, and computes the
    root hash of the data with the working set applied.  [hashFault] makes
    the hash computation fail, [prepares] counts the preparations. *)
Record Store : Type := mkStore {
  persisted : gmap (string * string) GoBytes;
  workingSet : Delta;
  hashFault : option error;
  prepares : nat
}.

Definition store_ops (d : Delta) : WriteBatch :=
  (λ e : (string * string) * GoBytes,
     let key := frame (String.list_byte_of_string e.1.1)
                ++ String.list_byte_of_string e.1.2 in
     match e.2 with
     | None => DeleteCF (OtherCF "stateCF") key
     | Some v => PutCF (OtherCF "stateCF") key (Some v)
     end) <$> map_to_list d.

#[export] Instance store : HashableState := {|
  Impl := Store;
  HashableState_Initialize i := (None, i);
  HashableState_Get i chaincodeID key :=
    ((default None (persisted i !! (chaincodeID, key)), None), i);
  HashableState_PrepareWorkingSet i d :=
    mkStore (persisted i) d (hashFault i) (S (prepares i));
  HashableState_ComputeCryptoHash i :=
    (match hashFault i with
     | Some e => (None, Some e)
     | None => (Some (marshal (workingSet i ∪ persisted i)), None)
     end, i);
  HashableState_ClearWorkingSet i :=
    mkStore (persisted i) ∅ (hashFault i) (prepares i);
  HashableState_AddChangesForPersistence i wb := (wb ++ store_ops (workingSet i), i)
|}.

(** Modelled from the spec: the database behind [db.GetDBHandle()], reduced
    to the history column family and a switch that makes reads fail. *)
Record Database : Type := mkDatabase {
  stateDeltaCF : gmap (list byte) (list byte);
  readFault : option error
}.

#[export] Instance database : OpenchainDB := {|
  DBHandle := Database;
  GetFromStateDeltaCF db key :=
    match readFault db with
    | Some e => (None, Some e)
    | None => (stateDeltaCF db !! key, None)
    end
|}.

Definition emptyStore : Store := mkStore ∅ ∅ None 0.

(** The manager that [NewState] builds over the empty store. *)
Definition fresh : State :=
  mkState emptyStore (∅ : Delta) (∅ : Delta) "" ∅ false [CallInitialize].

Definition bytes_of (s : string) : GoBytes := Some (String.list_byte_of_string s).

(** Runs a method and continues with the state it stops in. *)
Definition exec {A} (m : M A) (s : State) : State := final (m s).

(** [TxBegin("t1")], [Set("cc1", "k1", "v1")], [TxFinish("t1", true)] on the
    fresh manager. *)
Definition after_t1 : State :=
  exec (TxFinish "t1" true)
    (exec (Set_ "cc1" "k1" (bytes_of "v1")) (exec (TxBegin "t1") fresh)).

(** The manager with transaction ["t2"] in flight after ["t1"]. *)
Definition in_t2 : State :=
  exec (Set_ "cc1" "k2" (bytes_of "v2")) (exec (TxBegin "t2") after_t1).

End Double.

(** The test double of the database with the writes of state transfer: a
    committed batch is applied to the history column family, [DeleteState]
    empties it, and the switch that makes reads fail makes writes fail too. *)
Module DoubleTransfer.

Definition write (db : Double.Database) (writeBatch : WriteBatch)
  : option error * Double.Database :=
  match Double.readFault db with
  | Some e => (Some e, db)
  | None =>
      (None, Double.mkDatabase (history_commit writeBatch (Double.stateDeltaCF db)) None)
  end.

Definition deleteState (db : Double.Database) : option error * Double.Database :=
  match Double.readFault db with
  | Some e => (Some e, db)
  | None => (None, Double.mkDatabase ∅ None)
  end.

#[export] Instance database_writes : OpenchainDBWrites (DB := Double.database) :=
  Build_OpenchainDBWrites Double.database write deleteState.

(** A manager whose store fails to compute hashes, with the dirty flag set. *)
Definition failing : State :=
  @mkState Double.delta Double.store
    (Double.mkStore ∅ ∅ (Some "hash failed"%string) 0)
    (stateDelta Double.after_t1) (∅ : Double.Delta) "" ∅ true [].

End DoubleTransfer.


(** ** Properties of the codec *)

Lemma encodeUint64_bytes (n : Z) :
  encodeUint64 n =
    [byte.of_Z (n ≫ 56); byte.of_Z (n ≫ 48); byte.of_Z (n ≫ 40);
     byte.of_Z (n ≫ 32); byte.of_Z (n ≫ 24); byte.of_Z (n ≫ 16);
     byte.of_Z (n ≫ 8); byte.of_Z n].
Proof. reflexivity. Qed.

Lemma encodeUint64_PutUint64 (n : Z) :
  BigEndian_PutUint64 (replicate 8 Byte.x00) n = Some (encodeUint64 n).
Proof. reflexivity. Qed.

Lemma be_value_bound (l : list byte) :
  0 <= be_value l < 256 ^ Z.of_nat (length l).
Proof.
  induction l as [|x l IH]; simpl length; simpl be_value; [lia|].
  pose proof (byte.unsigned_range x) as Hx.
  rewrite Nat2Z.inj_succ, Z.pow_succ_r by lia.
  change (2 ^ 8) with 256 in Hx. nia.
Qed.

Lemma bytes_compare_be_value (a b : list byte) :
  length a = length b → bytes_compare a b = (be_value a ?= be_value b).
Proof.
  revert b. induction a as [|x a IH]; intros [|y b] Hlen; try discriminate.
  - reflexivity.
  - injection Hlen as Hlen. simpl bytes_compare. simpl be_value.
    pose proof (be_value_bound a) as Ha. pose proof (be_value_bound b) as Hb.
    rewrite Hlen in *. set (P := 256 ^ Z.of_nat (length b)) in *.
    destruct (Z.compare_spec (byte.unsigned x) (byte.unsigned y)) as [E|L|G].
    + rewrite IH by lia. rewrite E.
      destruct (Z.compare_spec (be_value a) (be_value b));
        symmetry; [apply Z.compare_eq_iff|apply Z.compare_lt_iff|apply Z.compare_gt_iff]; lia.
    + symmetry. apply Z.compare_lt_iff. nia.
    + symmetry. apply Z.compare_gt_iff. nia.
Qed.

Ltac eval_pows :=
  repeat match goal with
  | |- context [Z.of_nat ?k] =>
      is_ground k; let v := eval vm_compute in (Z.of_nat k) in change (Z.of_nat k) with v
  | |- context [?b ^ ?k] =>
      is_ground b; is_ground k;
      let v := eval vm_compute in (b ^ k) in change (b ^ k) with v
  | H : context [?b ^ ?k] |- _ =>
      is_ground b; is_ground k;
      let v := eval vm_compute in (b ^ k) in change (b ^ k) with v in H
  end.

Lemma shiftr_8_step (n k : Z) : 0 <= k → n ≫ (k + 8) = (n ≫ k) / 256.
Proof.
  intros Hk. rewrite <- Z.shiftr_shiftr by lia. apply (Z.shiftr_div_pow2 _ 8). lia.
Qed.

Lemma be_value_encodeUint64 (n : Z) : is_uint64 n → be_value (encodeUint64 n) = n.
Proof.
  intros [H0 H1]. rewrite encodeUint64_bytes.
  change 56 with (48 + 8); rewrite (shiftr_8_step n 48) by lia.
  change 48 with (40 + 8); rewrite (shiftr_8_step n 40) by lia.
  change 40 with (32 + 8); rewrite (shiftr_8_step n 32) by lia.
  change 32 with (24 + 8); rewrite (shiftr_8_step n 24) by lia.
  change 24 with (16 + 8); rewrite (shiftr_8_step n 16) by lia.
  change 16 with (8 + 8); rewrite (shiftr_8_step n 8) by lia.
  change (n ≫ 8) with (n ≫ (0 + 8)); rewrite (shiftr_8_step n 0), Z.shiftr_0_r by lia.
  unfold be_value, length. rewrite !byte.unsigned_of_Z. unfold byte.wrap.
  change (2 ^ 8) with 256.
  set (q1 := n / 256). set (q2 := q1 / 256). set (q3 := q2 / 256).
  set (q4 := q3 / 256). set (q5 := q4 / 256). set (q6 := q5 / 256). set (q7 := q6 / 256).
  pose proof (Z.div_mod n 256 ltac:(lia)) as E0; fold q1 in E0.
  pose proof (Z.div_mod q1 256 ltac:(lia)) as E1; fold q2 in E1.
  pose proof (Z.div_mod q2 256 ltac:(lia)) as E2; fold q3 in E2.
  pose proof (Z.div_mod q3 256 ltac:(lia)) as E3; fold q4 in E3.
  pose proof (Z.div_mod q4 256 ltac:(lia)) as E4; fold q5 in E4.
  pose proof (Z.div_mod q5 256 ltac:(lia)) as E5; fold q6 in E5.
  pose proof (Z.div_mod q6 256 ltac:(lia)) as E6; fold q7 in E6.
  pose proof (Z.mod_pos_bound n 256 ltac:(lia)).
  pose proof (Z.mod_pos_bound q1 256 ltac:(lia)).
  pose proof (Z.mod_pos_bound q2 256 ltac:(lia)).
  pose proof (Z.mod_pos_bound q3 256 ltac:(lia)).
  pose proof (Z.mod_pos_bound q4 256 ltac:(lia)).
  pose proof (Z.mod_pos_bound q5 256 ltac:(lia)).
  pose proof (Z.mod_pos_bound q6 256 ltac:(lia)).
  assert (q7 mod 256 = q7) as ->.
  { apply Z.mod_small. eval_pows. lia. }
  eval_pows.
  lia.
Qed.

Lemma lor_shiftl_add (a x k : Z) :
  0 <= k → 0 <= a < 2 ^ k → 0 <= x → Z.lor a (x ≪ k) = a + x * 2 ^ k.
Proof.
  intros Hk Ha Hx. rewrite <- Z.shiftl_mul_pow2 by lia.
  symmetry. apply Z.add_nocarry_lor. apply Z.bits_inj'. intros i Hi.
  rewrite Z.land_spec, Z.bits_0.
  destruct (Z.lt_ge_cases i k) as [Hlt|Hge].
  - rewrite (Z.shiftl_spec_low x k i Hlt). apply andb_false_r.
  - assert (Z.testbit a i = false) as ->; [|reflexivity].
    destruct (Z.eq_dec a 0) as [->|Hne]; [apply Z.bits_0|].
    apply Z.bits_above_log2; [lia|]. apply Z.log2_lt_pow2; [lia|].
    pose proof (Z.pow_le_mono_r 2 k i ltac:(lia) Hge). lia.
Qed.

Lemma BigEndian_Uint64_be_value (b : list byte) :
  length b = 8%nat → BigEndian_Uint64 b = Some (be_value b).
Proof.
  intros Hlen.
  destruct b as [|b0 [|b1 [|b2 [|b3 [|b4 [|b5 [|b6 [|b7 [|? ?]]]]]]]]]; try discriminate.
  unfold BigEndian_Uint64, be_value, length, wrap64. f_equal.
  pose proof (byte.unsigned_range b0). pose proof (byte.unsigned_range b1).
  pose proof (byte.unsigned_range b2). pose proof (byte.unsigned_range b3).
  pose proof (byte.unsigned_range b4). pose proof (byte.unsigned_range b5).
  pose proof (byte.unsigned_range b6). pose proof (byte.unsigned_range b7).
  rewrite !(Z.mod_small (_ ≪ _)) by (rewrite Z.shiftl_mul_pow2 by lia; eval_pows; lia).
  rewrite (lor_shiftl_add _ _ 8) by (eval_pows; lia).
  rewrite (lor_shiftl_add _ _ 16) by (eval_pows; lia).
  rewrite (lor_shiftl_add _ _ 24) by (eval_pows; lia).
  rewrite (lor_shiftl_add _ _ 32) by (eval_pows; lia).
  rewrite (lor_shiftl_add _ _ 40) by (eval_pows; lia).
  rewrite (lor_shiftl_add _ _ 48) by (eval_pows; lia).
  rewrite (lor_shiftl_add _ _ 56) by (eval_pows; lia).
  eval_pows. lia.
Qed.

Lemma decodeToUint64_encodeUint64 (n : Z) :
  is_uint64 n → decodeToUint64 (encodeUint64 n) = Some n.
Proof.
  intros Hn. unfold decodeToUint64.
  rewrite BigEndian_Uint64_be_value by reflexivity.
  by rewrite be_value_encodeUint64.
Qed.

(** ** Properties of the manager *)

(** Unfolds a method of the manager down to the state it builds. *)
Ltac run :=
  cbv [TxBegin TxFinish txInProgress Get Set_ Delete GetHash GetTxStateDeltaHash
       ClearInMemoryChanges AddChangesForPersistence
       stateImpl_Get stateImpl_PrepareWorkingSet stateImpl_ComputeCryptoHash
       stateImpl_ClearWorkingSet stateImpl_AddChangesForPersistence
       mbind M_bind mret M_ret gets modify panic];
  cbn [stateImpl stateDelta currentTxStateDelta currentTxUUID txStateDeltaHash
       updateStateImpl implCalls set_stateImpl set_stateDelta set_currentTxStateDelta
       set_currentTxUUID set_txStateDeltaHash set_updateStateImpl log_call negb].

Section ManagerProperties.
Context {SD : StateDeltaOps} {HS : HashableState}.

Implicit Types (s : State) (txUUID chaincodeID key : string).

Lemma TxFinish_matching s txUUID txSuccessful :
  currentTxUUID s = txUUID →
  TxFinish txUUID txSuccessful s =
    Returns tt
      (if txSuccessful then
         if StateDelta_IsEmpty (currentTxStateDelta s) then
           mkState (stateImpl s) (stateDelta s) NewStateDelta ""
             (<[txUUID := None]> (txStateDeltaHash s)) (updateStateImpl s) (implCalls s)
         else
           mkState (stateImpl s)
             (StateDelta_ApplyChanges (stateDelta s) (currentTxStateDelta s))
             NewStateDelta ""
             (<[txUUID := StateDelta_ComputeCryptoHash (currentTxStateDelta s)]>
                (txStateDeltaHash s))
             true (implCalls s)
       else
         mkState (stateImpl s) (stateDelta s) NewStateDelta ""
           (txStateDeltaHash s) (updateStateImpl s) (implCalls s)).
Proof.
  intros Hid. run. rewrite bool_decide_eq_false_2 by (intros Hne; by apply Hne).
  destruct txSuccessful; [|reflexivity].
  destruct (StateDelta_IsEmpty (currentTxStateDelta s)); reflexivity.
Qed.

Lemma GetHash_run s :
  GetHash s =
    let r := HashableState_ComputeCryptoHash (stateImpl (prepared s)) in
    Returns (match r.1.2 with Some e => (None, Some e) | None => (r.1.1, None) end)
      (log_call CallComputeCryptoHash (set_stateImpl r.2 (prepared s))).
Proof.
  run. unfold prepared. destruct (updateStateImpl s); cbn.
  - destruct (HashableState_ComputeCryptoHash _) as [[hash [e|]] i]; reflexivity.
  - destruct (HashableState_ComputeCryptoHash _) as [[hash [e|]] i]; reflexivity.
Qed.

Lemma prepared_flag s : updateStateImpl (prepared s) = false.
Proof. unfold prepared. by destruct (updateStateImpl s) eqn:E. Qed.

Lemma prepared_idle s : updateStateImpl s = false → prepared s = s.
Proof. unfold prepared. by intros ->. Qed.

Lemma prepareCount_prepared s :
  prepareCount (prepared s)
  = (prepareCount s + if updateStateImpl s then 1 else 0)%nat.
Proof.
  unfold prepared, prepareCount. destruct (updateStateImpl s); cbn; lia.
Qed.

Lemma AddChangesForPersistence_run s blockNumber writeBatch :
  AddChangesForPersistence blockNumber writeBatch s =
    let r := HashableState_AddChangesForPersistence (stateImpl (prepared s)) writeBatch in
    Returns
      (r.1 ++ [PutCF StateDeltaCF (encodeStateDeltaKey blockNumber)
                 (StateDelta_Marshal (stateDelta s))]
           ++ (if bool_decide (blockNumber >= historyStateDeltaSize) then
                 [DeleteCF StateDeltaCF
                    (encodeStateDeltaKey (wrap64 (blockNumber - historyStateDeltaSize)))]
               else []))
      (log_call CallAddChangesForPersistence (set_stateImpl r.2 (prepared s))).
Proof.
  run. unfold prepared. destruct (updateStateImpl s); cbn.
  - destruct (HashableState_AddChangesForPersistence _ _) as [wb i]; cbn.
    case_bool_decide; cbn; by rewrite <- ?app_assoc.
  - destruct (HashableState_AddChangesForPersistence _ _) as [wb i]; cbn.
    case_bool_decide; cbn; by rewrite <- ?app_assoc.
Qed.

(** *** Transactions *)

(** C1: when the id passed to [TxFinish] is the id of the transaction in
    flight, [TxFinish] returns; a successful finish with a non-empty
    transaction delta merges that delta into the aggregate delta, records
    its hash under the id and sets the dirty flag; a failed finish merges
    nothing and records nothing; and in every case the transaction delta is
    reset to the empty delta and the current id is cleared. *)
Theorem TxFinish_in_flight s txUUID txSuccessful :
  currentTxUUID s = txUUID →
  ∃ s', TxFinish txUUID txSuccessful s = Returns tt s'
    ∧ currentTxStateDelta s' = NewStateDelta
    ∧ currentTxUUID s' = ""
    ∧ stateImpl s' = stateImpl s
    ∧ (txSuccessful = true →
       StateDelta_IsEmpty (currentTxStateDelta s) = false →
       stateDelta s'
         = StateDelta_ApplyChanges (stateDelta s) (currentTxStateDelta s)
       ∧ txStateDeltaHash s'
         = <[txUUID := StateDelta_ComputeCryptoHash (currentTxStateDelta s)]>
             (txStateDeltaHash s)
       ∧ txStateDeltaHash s' !! txUUID
         = Some (StateDelta_ComputeCryptoHash (currentTxStateDelta s))
       ∧ updateStateImpl s' = true)
    ∧ (txSuccessful = false →
       stateDelta s' = stateDelta s
       ∧ txStateDeltaHash s' = txStateDeltaHash s
       ∧ updateStateImpl s' = updateStateImpl s).
Proof.
  intros Hid. eexists. split; [by apply TxFinish_matching|].
  destruct txSuccessful.
  - destruct (StateDelta_IsEmpty (currentTxStateDelta s)) eqn:Hempty; cbn.
    + split_and!; try done.
    + split_and!; try done. intros _ _. split_and!; try done.
      apply lookup_insert_eq.
  - cbn. split_and!; try done.
Qed.

(** C7: a successful [TxFinish] of a transaction whose delta is empty
    leaves an entry for the id in the map of hashes; the entry holds the
    nil hash as its marker, so a lookup that reports presence tells this
    transaction from one that never ran, for which the map has no entry. *)
Theorem TxFinish_empty_delta_marker s txUUID :
  currentTxUUID s = txUUID →
  StateDelta_IsEmpty (currentTxStateDelta s) = true →
  ∃ s', TxFinish txUUID true s = Returns tt s'
    ∧ txStateDeltaHash s' !! txUUID = Some None
    ∧ txUUID ∈ dom (txStateDeltaHash s')
    ∧ (∀ never : gmap string GoBytes,
         never !! txUUID = None →
         txStateDeltaHash s' !! txUUID ≠ never !! txUUID
         ∧ map_index_ok (txStateDeltaHash s') txUUID = (None, true)
         ∧ map_index_ok never txUUID = (None, false)).
Proof.
  intros Hid Hempty. eexists. split; [by apply TxFinish_matching|].
  rewrite Hempty. cbn.
  assert (<[txUUID:=None]> (txStateDeltaHash s) !! txUUID = Some (None : GoBytes))
    as Hl by apply lookup_insert_eq.
  split; [done|]. split; [apply elem_of_dom; by rewrite Hl|].
  intros never Hnever. unfold map_index_ok. rewrite Hl, Hnever. by cbn.
Qed.

(** The plain index expression of Go, which reports no presence, gives nil
    for the marker and for a missing entry alike. *)
Lemma map_index_marker_or_missing (m : gmap string GoBytes) txUUID :
  m !! txUUID = Some None ∨ m !! txUUID = None → map_index m txUUID = None.
Proof. unfold map_index. by intros [-> | ->]. Qed.

(** C9: with no transaction in flight, [TxFinish] with the empty id does
    not panic, since the empty id equals the cleared current id; a
    successful finish then records an entry under the empty id. *)
Theorem TxFinish_empty_id_when_idle s txSuccessful :
  currentTxUUID s = "" →
  ∃ s', TxFinish "" txSuccessful s = Returns tt s'
    ∧ panicked (TxFinish "" txSuccessful s) = false
    ∧ currentTxUUID s' = ""
    ∧ (txSuccessful = true →
       txStateDeltaHash s' !! ""
       = Some (if StateDelta_IsEmpty (currentTxStateDelta s) then None
               else StateDelta_ComputeCryptoHash (currentTxStateDelta s))).
Proof.
  intros Hid. rewrite (TxFinish_matching s "" txSuccessful Hid).
  eexists. split; [reflexivity|]. split; [reflexivity|].
  destruct txSuccessful.
  - destruct (StateDelta_IsEmpty (currentTxStateDelta s)); cbn;
      (split; [done|]); intros _; by rewrite lookup_insert_eq.
  - cbn. by split.
Qed.

(** C5: a second [TxBegin] while a transaction is in flight, a [TxFinish]
    whose id differs from the current one, and a [Set] or [Delete] with no
    transaction in flight all panic instead of returning, and the manager
    (its deltas, its map of hashes, its flag and its store) is then exactly
    as it was before the call. *)
Theorem protocol_violations_panic s :
  (∀ txUUID, currentTxUUID s ≠ "" →
     TxBegin txUUID s =
       Panics ("A tx [" +:+ currentTxUUID s
               +:+ "] is already in progress. Received call for begin of another tx ["
               +:+ txUUID +:+ "]") s)
  ∧ (∀ txUUID txSuccessful, currentTxUUID s ≠ txUUID →
       TxFinish txUUID txSuccessful s =
         Panics ("Different Uuid in tx-begin [" +:+ currentTxUUID s
                 +:+ "] and tx-finish [" +:+ txUUID +:+ "]") s)
  ∧ (∀ chaincodeID key value, currentTxUUID s = "" →
       Set_ chaincodeID key value s =
         Panics "State can be changed only in context of a tx." s)
  ∧ (∀ chaincodeID key, currentTxUUID s = "" →
       Delete chaincodeID key s =
         Panics "State can be changed only in context of a tx." s).
Proof.
  repeat split.
  - intros txUUID Hin. run. by rewrite bool_decide_eq_true_2.
  - intros txUUID txSuccessful Hne. run. by rewrite bool_decide_eq_true_2.
  - intros chaincodeID key value Hidle. run.
    by rewrite bool_decide_eq_false_2 by (intros Hne; by apply Hne).
  - intros chaincodeID key Hidle. run.
    by rewrite bool_decide_eq_false_2 by (intros Hne; by apply Hne).
Qed.

(** *** Reads *)

(** C2: an uncommitted read returns the value that the transaction delta
    holds for the pair, else the value that the aggregate delta holds, else
    what the store's [Get] returns; a committed read returns what the
    store's [Get] returns, whatever the two deltas hold. *)
Theorem Get_read_path s chaincodeID key :
  let persisted :=
    Returns (HashableState_Get (stateImpl s) chaincodeID key).1
      (log_call (CallGet chaincodeID key)
         (set_stateImpl (HashableState_Get (stateImpl s) chaincodeID key).2 s)) in
  (∀ valueHolder,
     StateDelta_Get (currentTxStateDelta s) chaincodeID key = Some valueHolder →
     Get chaincodeID key false s = Returns (UpdatedValue_GetValue valueHolder, None) s)
  ∧ (∀ valueHolder,
       StateDelta_Get (currentTxStateDelta s) chaincodeID key = None →
       StateDelta_Get (stateDelta s) chaincodeID key = Some valueHolder →
       Get chaincodeID key false s = Returns (UpdatedValue_GetValue valueHolder, None) s)
  ∧ (StateDelta_Get (currentTxStateDelta s) chaincodeID key = None →
     StateDelta_Get (stateDelta s) chaincodeID key = None →
     Get chaincodeID key false s = persisted)
  ∧ Get chaincodeID key true s = persisted.
Proof.
  cbn zeta. repeat split.
  - intros vh Htx. run. by rewrite Htx.
  - intros vh Htx Hagg. run. rewrite Htx. cbn. by rewrite Hagg.
  - intros Htx Hagg. run. rewrite Htx. cbn. rewrite Hagg. cbn.
    by destruct (HashableState_Get _ _ _).
  - run. by destruct (HashableState_Get _ _ _).
Qed.

(** *** The root hash *)

(** C3: when the store computes the same root hash twice in a row, two
    calls of [GetHash] with nothing in between return the same result and
    call [PrepareWorkingSet] at most once: the first call prepares the
    working set with the aggregate delta exactly when the dirty flag is
    set, and clears the flag, so the second call prepares nothing. *)
Theorem GetHash_twice s :
  hash_repeatable →
  ∃ r1 s1 r2 s2,
    GetHash s = Returns r1 s1 ∧ GetHash s1 = Returns r2 s2
    ∧ r2 = r1
    ∧ (prepareCount s2 ≤ prepareCount s + 1)%nat
    ∧ implCalls s1
      = CallComputeCryptoHash
          :: (if updateStateImpl s
              then CallPrepareWorkingSet (stateDelta s) :: implCalls s
              else implCalls s)
    ∧ updateStateImpl s1 = false
    ∧ implCalls s2 = CallComputeCryptoHash :: implCalls s1
    ∧ prepareCount s2 = prepareCount s1.
Proof.
  intros Hrep. do 4 eexists.
  split; [apply GetHash_run|]. cbn zeta.
  split; [rewrite GetHash_run; cbn zeta;
          rewrite prepared_idle by apply prepared_flag; reflexivity|].
  cbn [stateImpl log_call set_stateImpl].
  split.
  { specialize (Hrep (stateImpl (prepared s))).
    destruct (HashableState_ComputeCryptoHash (stateImpl (prepared s))) as [r1 i1].
    cbn in *. by rewrite Hrep. }
  pose proof (prepareCount_prepared s) as Hcount.
  unfold prepareCount in *. cbn [implCalls log_call set_stateImpl List.filter
    is_PrepareWorkingSet].
  split_and!; try done.
  - destruct (updateStateImpl s); lia.
  - unfold prepared. by destruct (updateStateImpl s).
  - apply prepared_flag.
Qed.

(** C10: [ClearInMemoryChanges] resets the aggregate delta, empties the map
    of hashes and has the store discard its working set, and leaves the
    dirty flag as it was; if the flag was set, the next [GetHash] or
    [AddChangesForPersistence] prepares the working set anew with the empty
    aggregate delta. *)
Theorem ClearInMemoryChanges_keeps_flag s :
  ∃ s', ClearInMemoryChanges s = Returns tt s'
    ∧ updateStateImpl s' = updateStateImpl s
    ∧ stateDelta s' = NewStateDelta
    ∧ txStateDeltaHash s' = ∅
    ∧ stateImpl s' = HashableState_ClearWorkingSet (stateImpl s)
    ∧ implCalls s' = CallClearWorkingSet :: implCalls s
    ∧ currentTxStateDelta s' = currentTxStateDelta s
    ∧ currentTxUUID s' = currentTxUUID s
    ∧ (updateStateImpl s = true →
       (∃ r s'', GetHash s' = Returns r s''
          ∧ implCalls s''
            = CallComputeCryptoHash :: CallPrepareWorkingSet NewStateDelta :: implCalls s'
          ∧ stateImpl s''
            = (HashableState_ComputeCryptoHash
                 (HashableState_PrepareWorkingSet (stateImpl s') NewStateDelta)).2
          ∧ updateStateImpl s'' = false)
       ∧ (∀ blockNumber writeBatch, ∃ writeBatch' s'',
            AddChangesForPersistence blockNumber writeBatch s' = Returns writeBatch' s''
            ∧ implCalls s''
              = CallAddChangesForPersistence
                  :: CallPrepareWorkingSet NewStateDelta :: implCalls s'
            ∧ stateImpl s''
              = (HashableState_AddChangesForPersistence
                   (HashableState_PrepareWorkingSet (stateImpl s') NewStateDelta)
                   writeBatch).2
            ∧ updateStateImpl s'' = false)).
Proof.
  eexists. split; [reflexivity|]. cbn. split_and!; try done.
  intros Hdirty. split.
  - rewrite GetHash_run. cbn zeta. do 2 eexists. split; [reflexivity|].
    unfold prepared. cbn. rewrite Hdirty. cbn. done.
  - intros blockNumber writeBatch. rewrite AddChangesForPersistence_run. cbn zeta.
    do 2 eexists. split; [reflexivity|].
    unfold prepared. cbn. rewrite Hdirty. cbn. done.
Qed.

(** *** The history of deltas *)

(** C6: [FetchStateDeltaFromDB] returns neither a delta nor an error when
    the read finds no entry under the block's history key, returns the
    error of the read when the read fails, and otherwise returns the delta
    unmarshalled from the bytes read. *)
Theorem FetchStateDeltaFromDB_results {DB : OpenchainDB} (db : DBHandle) blockNumber :
  (GetFromStateDeltaCF db (encodeStateDeltaKey blockNumber) = (None, None) →
   FetchStateDeltaFromDB db blockNumber = (None, None))
  ∧ (∀ bytes e,
       GetFromStateDeltaCF db (encodeStateDeltaKey blockNumber) = (bytes, Some e) →
       FetchStateDeltaFromDB db blockNumber = (None, Some e))
  ∧ (∀ bytes,
       GetFromStateDeltaCF db (encodeStateDeltaKey blockNumber) = (Some bytes, None) →
       FetchStateDeltaFromDB db blockNumber
       = (Some (StateDelta_Unmarshal NewStateDelta (Some bytes)), None)).
Proof.
  unfold FetchStateDeltaFromDB. repeat split.
  - by intros ->.
  - by intros bytes e ->.
  - by intros bytes ->.
Qed.

Lemma history_commit_app (wb1 wb2 : WriteBatch) log :
  history_commit (wb1 ++ wb2) log = history_commit wb2 (history_commit wb1 log).
Proof. apply foldl_app. Qed.

Lemma stage_and_commit_log s blockNumber log :
  impl_leaves_history →
  stage_and_commit s blockNumber log =
    let log' := <[encodeStateDeltaKey blockNumber :=
                    default [] (StateDelta_Marshal (stateDelta s))]> log in
    if bool_decide (blockNumber >= historyStateDeltaSize) then
      delete (encodeStateDeltaKey (wrap64 (blockNumber - historyStateDeltaSize))) log'
    else log'.
Proof.
  intros Himpl. unfold stage_and_commit. rewrite AddChangesForPersistence_run.
  cbv beta iota zeta. rewrite history_commit_app, Himpl.
  case_bool_decide; reflexivity.
Qed.

Lemma stage_and_commit_window s blockNumber log :
  impl_leaves_history → is_uint64 blockNumber →
  history_in_window blockNumber log →
  history_in_window (blockNumber + 1) (stage_and_commit s blockNumber log).
Proof.
  intros Himpl [Hlo Hhi] Hwin key. rewrite stage_and_commit_log by done. cbn zeta.
  unfold history_in_window, historyStateDeltaSize, wrap64 in *.
  case_bool_decide as Hge.
  - rewrite (Z.mod_small (blockNumber - 500)) by lia.
    rewrite lookup_delete. case_decide as Hdel; [by intros [? ?]|].
    rewrite lookup_insert. case_decide as Hput.
    + intros _. exists blockNumber. split; [done|lia].
    + intros Hsome. destruct (Hwin key Hsome) as (m & -> & Hm0 & Hm).
      exists m. split; [done|]. split; [done|].
      assert (m ≠ blockNumber - 500) by congruence. lia.
  - rewrite lookup_insert. case_decide as Hput.
    + intros _. exists blockNumber. split; [done|lia].
    + intros Hsome. destruct (Hwin key Hsome) as (m & -> & Hm0 & Hm).
      exists m. split; [done|lia].
Qed.

(** Blocks staged in consecutive order from block [first] on. *)
Lemma history_of_consecutive (states : list State) (first : Z) log :
  impl_leaves_history → 0 <= first → first + Z.of_nat (length states) <= 2 ^ 64 →
  history_in_window first log →
  history_in_window (first + Z.of_nat (length states))
    (history_of (zip (seqZ first (Z.of_nat (length states))) states) log).
Proof.
  intros Himpl. revert first log.
  induction states as [|s states IH]; intros first log Hfirst Hlast Hwin.
  - cbn. by rewrite Z.add_0_r.
  - cbn [length] in *. rewrite Nat2Z.inj_succ in *.
    rewrite seqZ_cons by lia. cbn [zip zip_with history_of foldl fst snd].
    replace (first + Z.succ (Z.of_nat (length states)))
      with (Z.succ first + Z.of_nat (length states)) by lia.
    replace (Z.pred (Z.succ (Z.of_nat (length states))))
      with (Z.of_nat (length states)) by lia.
    apply IH; [lia|lia|].
    apply stage_and_commit_window; [done|unfold is_uint64; lia|done].
Qed.

End ManagerProperties.

Lemma size_list_to_set_le (l : list (list byte)) :
  (size (list_to_set l : gset (list byte)) ≤ length l)%nat.
Proof.
  induction l as [|x l IH]; cbn [list_to_set length].
  - by rewrite size_empty.
  - rewrite size_union_alt, size_singleton.
    assert (list_to_set l ∖ {[x]} ⊆ (list_to_set l : gset (list byte))) as Hsub
      by set_solver.
    apply subseteq_size in Hsub. lia.
Qed.

Lemma history_in_window_size (n : Z) (log : gmap (list byte) (list byte)) :
  history_in_window n log → (size log ≤ Z.to_nat historyStateDeltaSize)%nat.
Proof.
  intros Hwin. rewrite <- size_dom.
  set (keys := encodeStateDeltaKey <$> seqZ (n - historyStateDeltaSize) historyStateDeltaSize).
  transitivity (size (list_to_set keys : gset (list byte))).
  - apply subseteq_size. intros key Hkey. apply elem_of_dom in Hkey.
    destruct (Hwin key Hkey) as (m & -> & _ & Hm).
    apply elem_of_list_to_set, list_elem_of_fmap. exists m. split; [done|].
    apply elem_of_seqZ. lia.
  - etransitivity; [apply size_list_to_set_le|].
    unfold keys. rewrite length_fmap, length_seqZ. done.
Qed.

(** ** The claims on the codec and on the retention window *)

(** C8: the history key of a block number is its 8-byte big-endian encoding:
    decoding the key of a [uint64] gives the number back, the key is 8 bytes
    long, and the lexicographic order of two keys is the numeric order of
    their block numbers. *)
Theorem encodeStateDeltaKey_big_endian (m n : Z) :
  is_uint64 m → is_uint64 n →
  decodeStateDeltaKey (encodeStateDeltaKey n) = Some n
  ∧ length (encodeStateDeltaKey n) = 8%nat
  ∧ encodeStateDeltaKey n
    = [byte.of_Z (n ≫ 56); byte.of_Z (n ≫ 48); byte.of_Z (n ≫ 40);
       byte.of_Z (n ≫ 32); byte.of_Z (n ≫ 24); byte.of_Z (n ≫ 16);
       byte.of_Z (n ≫ 8); byte.of_Z n]
  ∧ be_value (encodeStateDeltaKey n) = n
  ∧ (m < n → bytes_compare (encodeStateDeltaKey m) (encodeStateDeltaKey n) = Lt)
  ∧ bytes_compare (encodeStateDeltaKey m) (encodeStateDeltaKey n) = (m ?= n).
Proof.
  intros Hm Hn. unfold decodeStateDeltaKey, encodeStateDeltaKey.
  assert (bytes_compare (encodeUint64 m) (encodeUint64 n) = (m ?= n)) as Hcmp.
  { rewrite bytes_compare_be_value by reflexivity.
    by rewrite !be_value_encodeUint64. }
  split_and!; try done.
  - by apply decodeToUint64_encodeUint64.
  - by apply be_value_encodeUint64.
  - intros Hlt. rewrite Hcmp. by apply Z.compare_lt_iff.
Qed.

Section Retention.
Context {SD : StateDeltaOps} {HS : HashableState}.

(** C4, amended: for every block number and batch,
    [AddChangesForPersistence] appends, after the store's own changes, a
    put of the serialized aggregate delta under the block's history key,
    followed by a delete of the history key of [blockNumber - 500] exactly
    when [blockNumber >= 500]; that subtraction does not wrap around.  When
    the blocks are staged and committed in consecutive order, the log holds
    entries of the last 500 blocks only, hence at most 500 entries. *)
Theorem AddChangesForPersistence_retention (s : State) (blockNumber : Z)
        (writeBatch : WriteBatch) :
  is_uint64 blockNumber →
  let r := HashableState_AddChangesForPersistence (stateImpl (prepared s)) writeBatch in
  let put := PutCF StateDeltaCF (encodeStateDeltaKey blockNumber)
               (StateDelta_Marshal (stateDelta s)) in
  let del := DeleteCF StateDeltaCF
               (encodeStateDeltaKey (blockNumber - historyStateDeltaSize)) in
  ∃ staged s',
    AddChangesForPersistence blockNumber writeBatch s = Returns (r.1 ++ staged) s'
    ∧ staged = (if bool_decide (blockNumber >= historyStateDeltaSize)
                then [put; del] else [put])
    ∧ ((∃ key, DeleteCF StateDeltaCF key ∈ staged)
       ↔ blockNumber >= historyStateDeltaSize)
    ∧ (blockNumber >= historyStateDeltaSize →
       wrap64 (blockNumber - historyStateDeltaSize)
       = blockNumber - historyStateDeltaSize
       ∧ 0 <= blockNumber - historyStateDeltaSize <= blockNumber)
    ∧ (impl_leaves_history →
       (∀ log, history_in_window blockNumber log →
          history_in_window (blockNumber + 1) (stage_and_commit s blockNumber log)
          ∧ (size (stage_and_commit s blockNumber log)
             ≤ Z.to_nat historyStateDeltaSize)%nat)
       ∧ (∀ states : list State,
            Z.of_nat (length states) <= 2 ^ 64 →
            (size (history_of (zip (seqZ 0 (Z.of_nat (length states))) states) ∅)
             ≤ Z.to_nat historyStateDeltaSize)%nat)).
Proof.
  intros [Hlo Hhi]. cbn zeta. do 2 eexists.
  assert (blockNumber >= historyStateDeltaSize →
          wrap64 (blockNumber - historyStateDeltaSize)
          = blockNumber - historyStateDeltaSize) as Hwrap.
  { unfold wrap64, historyStateDeltaSize. intros Hge. apply Z.mod_small. lia. }
  split; [|split; [reflexivity|]].
  { rewrite AddChangesForPersistence_run. cbn zeta. f_equal. f_equal.
    case_bool_decide; [by rewrite Hwrap|done]. }
  split_and!.
  - case_bool_decide as Hge; split; try done.
    + intros _. eexists. apply list_elem_of_In. right. left. reflexivity.
    + intros (key & Hin). apply list_elem_of_In in Hin.
      destruct Hin as [Hin|[]]. discriminate.
  - intros Hge. split; [by apply Hwrap|]. unfold historyStateDeltaSize in *. lia.
  - intros Himpl. split.
    + intros log Hwin.
      assert (history_in_window (blockNumber + 1) (stage_and_commit s blockNumber log))
        as Hwin' by (by apply stage_and_commit_window).
      split; [done|]. by eapply history_in_window_size.
    + intros states Hlen.
      eapply history_in_window_size.
      apply (history_of_consecutive states 0 ∅ Himpl); [lia|lia|].
      intros key [v Hv]. by rewrite lookup_empty in Hv.
Qed.

End Retention.

(** C4, as stated, fails: the blocks 0 to 499 followed by block 1000 are all
    staged and committed, the delete staged with block 1000 is for block
    500, which has no entry, and the log ends with 501 entries. *)
Lemma history_log_exceeds_window :
  let blocks := (λ n, (n, Double.fresh)) <$> (seqZ 0 500 ++ [1000]) in
  Forall (λ b : Z * State, is_uint64 b.1) blocks
  ∧ size (history_of blocks ∅) = 501%nat
  ∧ ¬ (size (history_of blocks ∅) ≤ Z.to_nat historyStateDeltaSize)%nat.
Proof.
  cbn zeta.
  assert (size (history_of ((λ n, (n, Double.fresh)) <$> (seqZ 0 500 ++ [1000])) ∅)
          = 501%nat) as Hsize by (vm_compute; reflexivity).
  split_and!.
  - apply Forall_fmap, list.Forall_forall. intros n Hn. cbn.
    apply elem_of_app in Hn. unfold is_uint64.
    destruct Hn as [Hn%elem_of_seqZ | Hn%list_elem_of_singleton]; [|subst n]; lia.
  - exact Hsize.
  - rewrite Hsize. unfold historyStateDeltaSize. lia.
Qed.

(** ** The theorems on concrete runs of the test doubles *)

Ltac by_evaluation := vm_compute; reflexivity.

Lemma TxFinish_in_flight_witness :
  currentTxUUID Double.in_t2 = "t2"
  ∧ ∃ s', TxFinish "t2" true Double.in_t2 = Returns tt s'
      ∧ currentTxUUID s' = ""
      ∧ updateStateImpl s' = true
      ∧ stateDelta s'
        = StateDelta_ApplyChanges (stateDelta Double.in_t2)
            (currentTxStateDelta Double.in_t2).
Proof.
  split; [by_evaluation|].
  destruct (TxFinish_in_flight Double.in_t2 "t2" true ltac:(by_evaluation))
    as (s' & Hrun & _ & Hid & _ & Hsuccess & _).
  destruct (Hsuccess eq_refl ltac:(by_evaluation)) as (Hmerge & _ & _ & Hdirty).
  exists s'. split_and!; assumption.
Defined.

Lemma TxFinish_empty_delta_marker_witness :
  let s := Double.exec (TxBegin "t3") Double.after_t1 in
  currentTxUUID s = "t3"
  ∧ StateDelta_IsEmpty (currentTxStateDelta s) = true
  ∧ ∃ s', TxFinish "t3" true s = Returns tt s'
      ∧ txStateDeltaHash s' !! "t3" = Some None
      ∧ map_index_ok (txStateDeltaHash s') "t3" = (None, true)
      ∧ map_index_ok (txStateDeltaHash s) "t3" = (None, false).
Proof.
  cbn zeta. split; [by_evaluation|]. split; [by_evaluation|].
  destruct (TxFinish_empty_delta_marker (Double.exec (TxBegin "t3") Double.after_t1) "t3"
              ltac:(by_evaluation) ltac:(by_evaluation))
    as (s' & Hrun & Hentry & _ & Hnever).
  destruct (Hnever (txStateDeltaHash (Double.exec (TxBegin "t3") Double.after_t1))
              ltac:(by_evaluation)) as (_ & Hran & Hnot).
  exists s'. split_and!; assumption.
Defined.

Lemma TxFinish_empty_id_when_idle_witness :
  currentTxUUID Double.after_t1 = ""
  ∧ ∃ s', TxFinish "" true Double.after_t1 = Returns tt s'
      ∧ txStateDeltaHash s' !! "" = Some None.
Proof.
  split; [by_evaluation|].
  destruct (TxFinish_empty_id_when_idle Double.after_t1 true ltac:(by_evaluation))
    as (s' & Hrun & _ & _ & Hentry).
  exists s'. split; [assumption|]. exact (Hentry eq_refl).
Defined.

Lemma protocol_violations_panic_witness :
  currentTxUUID Double.in_t2 ≠ ""
  ∧ panicked (TxBegin "t3" Double.in_t2) = true
  ∧ final (TxBegin "t3" Double.in_t2) = Double.in_t2
  ∧ panicked (TxFinish "t1" true Double.in_t2) = true
  ∧ final (TxFinish "t1" true Double.in_t2) = Double.in_t2
  ∧ currentTxUUID Double.after_t1 = ""
  ∧ panicked (Set_ "cc1" "k1" (Double.bytes_of "v") Double.after_t1) = true
  ∧ final (Set_ "cc1" "k1" (Double.bytes_of "v") Double.after_t1) = Double.after_t1
  ∧ panicked (Delete "cc1" "k1" Double.after_t1) = true
  ∧ final (Delete "cc1" "k1" Double.after_t1) = Double.after_t1.
Proof.
  assert (currentTxUUID Double.in_t2 ≠ "") as Hin by (vm_compute; discriminate).
  assert (currentTxUUID Double.in_t2 ≠ "t1") as Hne by (vm_compute; discriminate).
  assert (currentTxUUID Double.after_t1 = "") as Hidle by by_evaluation.
  destruct (protocol_violations_panic Double.in_t2) as (Hbegin & Hfinish & _ & _).
  destruct (protocol_violations_panic Double.after_t1) as (_ & _ & Hset & Hdelete).
  rewrite (Hbegin "t3" Hin), (Hfinish "t1" true Hne),
    (Hset "cc1" "k1" (Double.bytes_of "v") Hidle), (Hdelete "cc1" "k1" Hidle).
  split_and!; first [assumption | reflexivity].
Defined.

Lemma Get_read_path_witness :
  Get "cc1" "k2" false Double.in_t2 = Returns (Double.bytes_of "v2", None) Double.in_t2
  ∧ Get "cc1" "k1" false Double.in_t2 = Returns (Double.bytes_of "v1", None) Double.in_t2
  ∧ (Get "cc1" "k9" false Double.in_t2 = Get "cc1" "k9" true Double.in_t2)
  ∧ Get "cc1" "k1" true Double.in_t2
    = Returns (None, None) (log_call (CallGet "cc1" "k1") Double.in_t2).
Proof.
  destruct (Get_read_path Double.in_t2 "cc1" "k2") as (Htx & _).
  destruct (Get_read_path Double.in_t2 "cc1" "k1") as (_ & Hagg & _ & Hcommitted).
  destruct (Get_read_path Double.in_t2 "cc1" "k9") as (_ & _ & Hmiss & Hcommitted9).
  split_and!.
  - apply (Htx (Double.bytes_of "v2")). by_evaluation.
  - apply (Hagg (Double.bytes_of "v1")); by_evaluation.
  - rewrite Hcommitted9. apply Hmiss; by_evaluation.
  - rewrite Hcommitted. reflexivity.
Defined.

Lemma GetHash_twice_witness :
  @hash_repeatable Double.delta Double.store
  ∧ updateStateImpl Double.after_t1 = true
  ∧ ∃ r s1 s2, GetHash Double.after_t1 = Returns r s1
      ∧ GetHash s1 = Returns r s2
      ∧ prepareCount s2 = 1%nat.
Proof.
  assert (@hash_repeatable Double.delta Double.store) as Hrep by (intros i; reflexivity).
  split; [exact Hrep|]. split; [by_evaluation|].
  destruct (GetHash_twice Double.after_t1 Hrep)
    as (r1 & s1 & r2 & s2 & Hrun1 & Hrun2 & -> & _ & Hcalls1 & _ & Hcalls2 & _).
  exists r1, s1, s2. split_and!; try assumption.
  unfold prepareCount. rewrite Hcalls2, Hcalls1. reflexivity.
Defined.

Lemma ClearInMemoryChanges_keeps_flag_witness :
  updateStateImpl Double.after_t1 = true
  ∧ ∃ s', ClearInMemoryChanges Double.after_t1 = Returns tt s'
      ∧ updateStateImpl s' = true
      ∧ stateDelta s' = NewStateDelta
      ∧ ∃ r s'', GetHash s' = Returns r s''
          ∧ implCalls s''
            = CallComputeCryptoHash :: CallPrepareWorkingSet NewStateDelta :: implCalls s'.
Proof.
  assert (updateStateImpl Double.after_t1 = true) as Hdirty by by_evaluation.
  split; [exact Hdirty|].
  destruct (ClearInMemoryChanges_keeps_flag Double.after_t1)
    as (s' & Hrun & Hflag & Hdelta & _ & _ & _ & _ & _ & Hnext).
  destruct (Hnext Hdirty) as ((r & s'' & Hhash & Hcalls & _) & _).
  exists s'. split; [exact Hrun|]. split; [rewrite Hflag; exact Hdirty|].
  split; [exact Hdelta|]. exists r, s''. split; assumption.
Defined.

Lemma FetchStateDeltaFromDB_results_witness :
  let log : gmap (list byte) (list byte) :=
    {[ encodeStateDeltaKey 7 := Double.marshal (stateDelta Double.after_t1) ]} in
  let db := Double.mkDatabase log None in
  let broken := Double.mkDatabase log (Some "read failed"%string) in
  let fetch := FetchStateDeltaFromDB (SD := Double.delta) (DB := Double.database) in
  fetch db 8 = (None, None)
  ∧ fetch broken 7 = (None, Some "read failed"%string)
  ∧ fetch db 7 = (Some (stateDelta Double.after_t1), None).
Proof.
  cbn zeta.
  set (log := {[ encodeStateDeltaKey 7 := Double.marshal (stateDelta Double.after_t1) ]}
              : gmap (list byte) (list byte)).
  destruct (FetchStateDeltaFromDB_results (SD := Double.delta) (DB := Double.database)
              (Double.mkDatabase log None) 8) as (Hnone & _ & _).
  destruct (FetchStateDeltaFromDB_results (SD := Double.delta) (DB := Double.database)
              (Double.mkDatabase log (Some "read failed"%string)) 7) as (_ & Herr & _).
  destruct (FetchStateDeltaFromDB_results (SD := Double.delta) (DB := Double.database)
              (Double.mkDatabase log None) 7) as (_ & _ & Hsome).
  split_and!.
  - apply Hnone. by_evaluation.
  - apply (Herr None). by_evaluation.
  - rewrite (Hsome (Double.marshal (stateDelta Double.after_t1))) by by_evaluation.
    by_evaluation.
Defined.

Lemma encodeStateDeltaKey_big_endian_witness :
  is_uint64 255 ∧ is_uint64 256
  ∧ decodeStateDeltaKey (encodeStateDeltaKey 256) = Some 256
  ∧ bytes_compare (encodeStateDeltaKey 255) (encodeStateDeltaKey 256) = Lt.
Proof.
  assert (is_uint64 255) as H255 by (unfold is_uint64; lia).
  assert (is_uint64 256) as H256 by (unfold is_uint64; lia).
  destruct (encodeStateDeltaKey_big_endian 255 256 H255 H256)
    as (Hround & _ & _ & _ & Hlt & _).
  split_and!; try assumption. apply Hlt. lia.
Defined.

Lemma AddChangesForPersistence_retention_witness :
  is_uint64 700
  ∧ ∃ s', AddChangesForPersistence 700 [] Double.after_t1
          = Returns
              (Double.store_ops (stateDelta Double.after_t1)
               ++ [PutCF StateDeltaCF (encodeStateDeltaKey 700)
                     (StateDelta_Marshal (stateDelta Double.after_t1));
                   DeleteCF StateDeltaCF (encodeStateDeltaKey 200)]) s'.
Proof.
  assert (is_uint64 700) as H700 by (unfold is_uint64; lia).
  split; [exact H700|].
  destruct (AddChangesForPersistence_retention Double.after_t1 700 [] H700)
    as (staged & s' & Hrun & -> & _).
  exists s'. rewrite Hrun. reflexivity.
Defined.

(** ** Further properties of the codec *)

Lemma bytes_compare_Eq (a b : list byte) : bytes_compare a b = Eq → a = b.
Proof.
  revert b. induction a as [|x a IH]; intros [|y b]; cbn; try discriminate; [done|].
  destruct (Z.compare_spec (byte.unsigned x) (byte.unsigned y)) as [E|L|G];
    try discriminate.
  intros Hrest. f_equal; [by apply byte.unsigned_inj|by apply IH].
Qed.

Lemma be_value_uint64 (key : list byte) : length key = 8%nat → is_uint64 (be_value key).
Proof.
  intros Hlen. pose proof (be_value_bound key) as Hb. rewrite Hlen in Hb.
  unfold is_uint64. eval_pows. lia.
Qed.

Lemma encodeUint64_be_value (key : list byte) :
  length key = 8%nat → encodeUint64 (be_value key) = key.
Proof.
  intros Hlen. apply bytes_compare_Eq.
  rewrite bytes_compare_be_value by (by rewrite Hlen).
  rewrite be_value_encodeUint64 by (by apply be_value_uint64).
  apply Z.compare_refl.
Qed.

(** X1: history keys and block numbers correspond one to one: two different
    block numbers never share a key, and every 8-byte key is the key of the
    block number it decodes to. *)
Theorem encodeStateDeltaKey_bijection :
  (∀ m n, is_uint64 m → is_uint64 n →
     encodeStateDeltaKey m = encodeStateDeltaKey n → m = n)
  ∧ (∀ key, length key = 8%nat →
       ∃ n, is_uint64 n ∧ decodeStateDeltaKey key = Some n
            ∧ encodeStateDeltaKey n = key).
Proof.
  unfold encodeStateDeltaKey, decodeStateDeltaKey. split.
  - intros m n Hm Hn Heq.
    rewrite <- (be_value_encodeUint64 m Hm), <- (be_value_encodeUint64 n Hn).
    by rewrite Heq.
  - intros key Hlen. exists (be_value key). split_and!.
    + by apply be_value_uint64.
    + by apply BigEndian_Uint64_be_value.
    + by apply encodeUint64_be_value.
Qed.

(** X2: decoding a key panics exactly when the key is shorter than 8 bytes;
    on a longer key it reads the first 8 bytes, most significant first, and
    ignores the rest, and what it returns is a [uint64]. *)
Theorem decodeStateDeltaKey_by_length (key : list byte) :
  (decodeStateDeltaKey key = None ↔ (length key < 8)%nat)
  ∧ ((8 ≤ length key)%nat →
     decodeStateDeltaKey key = Some (be_value (take 8 key))
     ∧ is_uint64 (be_value (take 8 key))
     ∧ decodeStateDeltaKey key = decodeStateDeltaKey (take 8 key)).
Proof.
  unfold decodeStateDeltaKey, decodeToUint64.
  destruct key as [|b0 [|b1 [|b2 [|b3 [|b4 [|b5 [|b6 [|b7 rest]]]]]]]];
    try (split; [split; [cbn; lia|done]|cbn; lia]).
  assert (BigEndian_Uint64 (b0 :: b1 :: b2 :: b3 :: b4 :: b5 :: b6 :: b7 :: rest)
          = BigEndian_Uint64 [b0; b1; b2; b3; b4; b5; b6; b7]) as Hprefix by reflexivity.
  assert (BigEndian_Uint64 [b0; b1; b2; b3; b4; b5; b6; b7]
          = Some (be_value [b0; b1; b2; b3; b4; b5; b6; b7])) as Hvalue
    by (by apply BigEndian_Uint64_be_value).
  split.
  - rewrite Hprefix, Hvalue. split; [discriminate|cbn; lia].
  - intros _. change (take 8 (b0 :: b1 :: b2 :: b3 :: b4 :: b5 :: b6 :: b7 :: rest))
      with [b0; b1; b2; b3; b4; b5; b6; b7].
    rewrite Hprefix, Hvalue. split_and!; try done. by apply be_value_uint64.
Qed.

Lemma decodeStateDeltaKey_by_length_witness :
  decodeStateDeltaKey (encodeStateDeltaKey 300 ++ [Byte.xff]) = Some 300
  ∧ decodeStateDeltaKey (take 7 (encodeStateDeltaKey 300)) = None.
Proof.
  destruct (decodeStateDeltaKey_by_length (encodeStateDeltaKey 300 ++ [Byte.xff]))
    as (_ & Hlong).
  destruct (decodeStateDeltaKey_by_length (take 7 (encodeStateDeltaKey 300)))
    as (Hshort & _).
  split.
  - destruct (Hlong ltac:(vm_compute; lia)) as (-> & _). by_evaluation.
  - apply Hshort. vm_compute. lia.
Defined.

(** ** Runs of the manager *)

(** Unfolds a run of calls down to the methods. *)
Ltac run_calls :=
  cbv [run_op ApplyStateDelta DeleteState]; run.

Section ManagerRuns.
Context {SD : StateDeltaOps} {HS : HashableState}.

Implicit Types (s : State) (op : Op) (ops : list Op).

Lemma run_ops_cons op ops s :
  run_ops (op :: ops) s =
    match run_op op s with
    | Returns _ s' => run_ops ops s'
    | Panics v s' => Panics v s'
    end.
Proof. reflexivity. Qed.

Lemma run_ops_app ops1 ops2 s :
  run_ops (ops1 ++ ops2) s =
    match run_ops ops1 s with
    | Returns _ s' => run_ops ops2 s'
    | Panics v s' => Panics v s'
    end.
Proof.
  revert s. induction ops1 as [|op ops1 IH]; intros s; [reflexivity|].
  cbn [app]. rewrite !run_ops_cons. destruct (run_op op s); [apply IH|reflexivity].
Qed.

Lemma run_ops_invariant (Q : Op → bool) (P : State → Prop) :
  (∀ op s, Q op = true → P s → P (final (run_op op s))) →
  ∀ ops s, forallb Q ops = true → P s → P (final (run_ops ops s)).
Proof.
  intros Hstep ops. induction ops as [|op ops IH]; intros s HQ HP; [exact HP|].
  cbn [forallb] in HQ. apply andb_prop in HQ as [HQop HQ].
  rewrite run_ops_cons. specialize (Hstep op s HQop HP).
  destruct (run_op op s) as [[] s'|v s']; [by apply IH|exact Hstep].
Qed.

Lemma forallb_any ops : forallb (λ _ : Op, true) ops = true.
Proof. by induction ops. Qed.

Lemma TxBegin_idle s txUUID :
  currentTxUUID s = "" → TxBegin txUUID s = Returns tt (set_currentTxUUID txUUID s).
Proof.
  intros Hidle. run. by rewrite bool_decide_eq_false_2 by (intros Hne; by apply Hne).
Qed.

Lemma Set_in_flight s chaincodeID key value :
  currentTxUUID s ≠ "" →
  Set_ chaincodeID key value s =
    Returns None
      (set_currentTxStateDelta
         (StateDelta_Set (currentTxStateDelta s) chaincodeID key value) s).
Proof. intros Hin. run. by rewrite bool_decide_eq_true_2. Qed.

Lemma Delete_in_flight s chaincodeID key :
  currentTxUUID s ≠ "" →
  Delete chaincodeID key s =
    Returns None
      (set_currentTxStateDelta
         (StateDelta_Delete (currentTxStateDelta s) chaincodeID key) s).
Proof. intros Hin. run. by rewrite bool_decide_eq_true_2. Qed.

Lemma TxBegin_in_flight s txUUID :
  currentTxUUID s ≠ "" → final (TxBegin txUUID s) = s.
Proof. intros Hin. run. by rewrite bool_decide_eq_true_2. Qed.

Lemma TxFinish_mismatch s txUUID txSuccessful :
  currentTxUUID s ≠ txUUID → final (TxFinish txUUID txSuccessful s) = s.
Proof. intros Hne. run. by rewrite bool_decide_eq_true_2. Qed.

Lemma Set_idle s chaincodeID key value :
  currentTxUUID s = "" →
  Set_ chaincodeID key value s = Panics "State can be changed only in context of a tx." s.
Proof.
  intros Hidle. run. by rewrite bool_decide_eq_false_2 by (intros Hne; by apply Hne).
Qed.

Lemma Delete_idle s chaincodeID key :
  currentTxUUID s = "" →
  Delete chaincodeID key s = Panics "State can be changed only in context of a tx." s.
Proof.
  intros Hidle. run. by rewrite bool_decide_eq_false_2 by (intros Hne; by apply Hne).
Qed.

Lemma Get_run s chaincodeID key committed :
  Get chaincodeID key committed s =
    match (if committed then None
           else match StateDelta_Get (currentTxStateDelta s) chaincodeID key with
                | Some valueHolder => Some valueHolder
                | None => StateDelta_Get (stateDelta s) chaincodeID key
                end) with
    | Some valueHolder => Returns (UpdatedValue_GetValue valueHolder, None) s
    | None =>
        Returns (HashableState_Get (stateImpl s) chaincodeID key).1
          (log_call (CallGet chaincodeID key)
             (set_stateImpl (HashableState_Get (stateImpl s) chaincodeID key).2 s))
    end.
Proof.
  run. destruct committed; cbn.
  - by destruct (HashableState_Get _ _ _).
  - destruct (StateDelta_Get (currentTxStateDelta s) chaincodeID key); [done|]. cbn.
    destruct (StateDelta_Get (stateDelta s) chaincodeID key); [done|]. cbn.
    by destruct (HashableState_Get _ _ _).
Qed.

(** What one call leaves of the manager. *)
Lemma run_op_cases op s s' :
  final (run_op op s) = s' →
  s' = s
  ∨ (∃ txUUID, op = OpTxBegin txUUID ∧ currentTxUUID s = "" ∧ s' = set_currentTxUUID txUUID s)
  ∨ (∃ txSuccessful, op = OpTxFinish (currentTxUUID s) txSuccessful
       ∧ TxFinish (currentTxUUID s) txSuccessful s = Returns tt s')
  ∨ (∃ delta, is_write op = true ∧ currentTxUUID s ≠ ""
       ∧ s' = set_currentTxStateDelta delta s)
  ∨ (∃ chaincodeID key committed i, op = OpGet chaincodeID key committed
       ∧ s' = log_call (CallGet chaincodeID key) (set_stateImpl i s))
  ∨ (op = OpGetHash
     ∧ ∃ i, s' = log_call CallComputeCryptoHash (set_stateImpl i (prepared s)))
  ∨ (∃ blockNumber writeBatch i, op = OpAddChangesForPersistence blockNumber writeBatch
       ∧ s' = log_call CallAddChangesForPersistence (set_stateImpl i (prepared s)))
  ∨ (op = OpClearInMemoryChanges
     ∧ s' = log_call CallClearWorkingSet
              (set_stateImpl (HashableState_ClearWorkingSet (stateImpl s))
                 (set_txStateDeltaHash ∅ (set_stateDelta NewStateDelta s)))).
Proof.
  intros <-. destruct op as [tx|tx ok|cc k v|cc k|cc k committed| | |n wb].
  - destruct (decide (currentTxUUID s = "")) as [Hidle|Hin].
    + right; left. exists tx. cbn [run_op]. rewrite TxBegin_idle by done. done.
    + left. cbn [run_op]. by apply TxBegin_in_flight.
  - destruct (decide (currentTxUUID s = tx)) as [<-|Hne].
    + do 2 right; left. exists ok. split; [done|]. cbn [run_op].
      by rewrite (TxFinish_matching s _ ok eq_refl).
    + left. cbn [run_op]. by apply TxFinish_mismatch.
  - destruct (decide (currentTxUUID s = "")) as [Hidle|Hin].
    + left. cbv [run_op mbind M_bind]. by rewrite Set_idle.
    + do 3 right; left. eexists. split; [done|]. split; [done|].
      cbv [run_op mbind M_bind]. rewrite Set_in_flight by done. reflexivity.
  - destruct (decide (currentTxUUID s = "")) as [Hidle|Hin].
    + left. cbv [run_op mbind M_bind]. by rewrite Delete_idle.
    + do 3 right; left. eexists. split; [done|]. split; [done|].
      cbv [run_op mbind M_bind]. rewrite Delete_in_flight by done. reflexivity.
  - cbv [run_op mbind M_bind]. rewrite Get_run.
    destruct (if committed then None else _) as [vh|].
    + by left.
    + do 4 right; left. cbn. by do 4 eexists.
  - do 5 right; left. split; [done|]. cbv [run_op mbind M_bind].
    rewrite GetHash_run. cbn. by eexists.
  - do 7 right. done.
  - do 6 right; left. cbv [run_op mbind M_bind].
    rewrite AddChangesForPersistence_run. cbn. by do 3 eexists.
Qed.

Lemma set_currentTxStateDelta_same s :
  set_currentTxStateDelta (currentTxStateDelta s) s = s.
Proof. by destruct s. Qed.

Lemma writes_run s ops :
  currentTxUUID s ≠ "" → forallb is_write ops = true →
  run_ops ops s =
    Returns tt (set_currentTxStateDelta (foldl write_to (currentTxStateDelta s) ops) s).
Proof.
  revert s. induction ops as [|op ops IH]; intros s Hin Hws.
  - cbn. by rewrite set_currentTxStateDelta_same.
  - cbn [forallb] in Hws. apply andb_prop in Hws as [Hw Hws].
    rewrite run_ops_cons.
    destruct op as [| |cc k v|cc k| | | |]; try discriminate; cbv [run_op mbind M_bind].
    + rewrite Set_in_flight by done. cbn [mret M_ret]. rewrite IH by done. by destruct s.
    + rewrite Delete_in_flight by done. cbn [mret M_ret]. rewrite IH by done. by destruct s.
Qed.

Lemma transaction_run s txUUID ops txSuccessful :
  currentTxUUID s = "" → txUUID ≠ "" → forallb is_write ops = true →
  run_ops (OpTxBegin txUUID :: ops ++ [OpTxFinish txUUID txSuccessful]) s =
    TxFinish txUUID txSuccessful
      (set_currentTxStateDelta (foldl write_to (currentTxStateDelta s) ops)
         (set_currentTxUUID txUUID s)).
Proof.
  intros Hidle Htx Hws. rewrite run_ops_cons. cbn [run_op].
  rewrite TxBegin_idle by done. rewrite run_ops_app, writes_run by done.
  rewrite run_ops_cons. cbn [run_op].
  by destruct (TxFinish _ _ _) as [[] ?|? ?].
Qed.

(** *** Transactions as a whole *)

(** X3: a transaction that fails is rolled back exactly: on an idle manager
    whose transaction delta is empty, [TxBegin], any number of [Set] and
    [Delete] calls and [TxFinish] with [txSuccessful = false] return, and
    leave the manager in the very state it was in before [TxBegin]. *)
Theorem transaction_rollback s txUUID ops :
  currentTxUUID s = "" → currentTxStateDelta s = NewStateDelta →
  txUUID ≠ "" → forallb is_write ops = true →
  run_ops (OpTxBegin txUUID :: ops ++ [OpTxFinish txUUID false]) s = Returns tt s.
Proof.
  intros Hidle Hclean Htx Hws. rewrite transaction_run by done.
  rewrite TxFinish_matching by reflexivity.
  destruct s; cbn in *. by subst.
Qed.

(** X4: a transaction that succeeds is committed as a whole: [TxBegin], a
    series of [Set] and [Delete] calls and a successful [TxFinish] merge into
    the aggregate delta the delta built by applying the writes in order,
    record its hash under the id and set the dirty flag; when the series
    leaves the delta empty, only the nil entry is recorded.  Neither the
    store nor the log of calls made on it changes. *)
Theorem transaction_commit s txUUID ops :
  currentTxUUID s = "" → txUUID ≠ "" → forallb is_write ops = true →
  let txDelta := foldl write_to (currentTxStateDelta s) ops in
  run_ops (OpTxBegin txUUID :: ops ++ [OpTxFinish txUUID true]) s =
    Returns tt
      (if StateDelta_IsEmpty txDelta then
         mkState (stateImpl s) (stateDelta s) NewStateDelta ""
           (<[txUUID := None]> (txStateDeltaHash s)) (updateStateImpl s) (implCalls s)
       else
         mkState (stateImpl s) (StateDelta_ApplyChanges (stateDelta s) txDelta)
           NewStateDelta ""
           (<[txUUID := StateDelta_ComputeCryptoHash txDelta]> (txStateDeltaHash s))
           true (implCalls s)).
Proof.
  intros Hidle Htx Hws. cbn zeta. rewrite transaction_run by done.
  by rewrite TxFinish_matching by reflexivity.
Qed.

(** X5: calls of [TxBegin], [TxFinish], [Set] and [Delete], in any number
    and order and whether they panic or not, never call the store: its state
    and the log of calls are unchanged, so a committed read returns after
    them what it returned before. *)
Theorem transactions_leave_store s ops :
  forallb is_tx_op ops = true →
  let s' := final (run_ops ops s) in
  stateImpl s' = stateImpl s
  ∧ implCalls s' = implCalls s
  ∧ ∀ chaincodeID key,
      result (Get chaincodeID key true s') = result (Get chaincodeID key true s).
Proof.
  intros Htx. cbn zeta.
  assert (stateImpl (final (run_ops ops s)) = stateImpl s
          ∧ implCalls (final (run_ops ops s)) = implCalls s) as [Himpl Hcalls].
  { apply (run_ops_invariant is_tx_op
             (λ s', stateImpl s' = stateImpl s ∧ implCalls s' = implCalls s));
      [|done|done].
    intros op s0 Hop [Hi Hc].
    destruct (run_op_cases op s0 _ eq_refl)
      as [->|[(tx & _ & _ & ->)|[(ok & _ & Hrun)|[(d & _ & _ & ->)|
          [(cc & k & c & i & -> & _)|[(-> & _)|[(n & wb & i & -> & _)|(-> & _)]]]]]]];
      try done.
    rewrite TxFinish_matching in Hrun by reflexivity.
    injection Hrun as <-. destruct ok; [|done].
    by destruct (StateDelta_IsEmpty (currentTxStateDelta s0)). }
  split_and!; try done.
  intros cc k. rewrite !Get_run. cbn. by rewrite Himpl.
Qed.

(** X6: an empty id starts no transaction: on an idle manager [TxBegin("")]
    returns and leaves the manager exactly as it was, so a [Set] or a
    [Delete] that follows panics and a [TxBegin] that follows is accepted. *)
Theorem TxBegin_empty_id_starts_nothing s :
  currentTxUUID s = "" →
  TxBegin "" s = Returns tt s
  ∧ (∀ chaincodeID key value,
       panicked (run_ops [OpTxBegin ""; OpSet chaincodeID key value] s) = true)
  ∧ (∀ chaincodeID key,
       panicked (run_ops [OpTxBegin ""; OpDelete chaincodeID key] s) = true)
  ∧ (∀ txUUID,
       run_ops [OpTxBegin ""; OpTxBegin txUUID] s
       = Returns tt (set_currentTxUUID txUUID s)).
Proof.
  intros Hidle.
  assert (TxBegin "" s = Returns tt s) as Hbegin.
  { rewrite TxBegin_idle by done. destruct s; cbn in *. by subst. }
  split_and!; [done|..].
  - intros cc k v. rewrite run_ops_cons. cbn [run_op]. rewrite Hbegin.
    rewrite run_ops_cons. cbv [run_op mbind M_bind]. by rewrite Set_idle.
  - intros cc k. rewrite run_ops_cons. cbn [run_op]. rewrite Hbegin.
    rewrite run_ops_cons. cbv [run_op mbind M_bind]. by rewrite Delete_idle.
  - intros tx. rewrite run_ops_cons. cbn [run_op]. rewrite Hbegin.
    rewrite run_ops_cons. cbn [run_op]. by rewrite TxBegin_idle.
Qed.

(** X7: read your own writes.  For a delta in which a lookup after [Set]
    finds the value set and a lookup after [Delete] finds the nil value, a
    value written in the transaction in flight is what an uncommitted read of
    the same key returns, and a key deleted in the transaction reads as nil;
    in both cases the store is not asked. *)
Theorem read_your_own_writes s chaincodeID key value :
  (∀ delta cc k v, ∃ valueHolder,
     StateDelta_Get (StateDelta_Set delta cc k v) cc k = Some valueHolder
     ∧ UpdatedValue_GetValue valueHolder = v) →
  (∀ delta cc k, ∃ valueHolder,
     StateDelta_Get (StateDelta_Delete delta cc k) cc k = Some valueHolder
     ∧ UpdatedValue_GetValue valueHolder = None) →
  currentTxUUID s ≠ "" →
  (∃ s1, Set_ chaincodeID key value s = Returns None s1
     ∧ Get chaincodeID key false s1 = Returns (value, None) s1)
  ∧ (∃ s1, Delete chaincodeID key s = Returns None s1
       ∧ Get chaincodeID key false s1 = Returns (None, None) s1).
Proof.
  intros Hset Hdelete Hin. split.
  - eexists. split; [by apply Set_in_flight|]. rewrite Get_run. cbn.
    destruct (Hset (currentTxStateDelta s) chaincodeID key value) as (vh & -> & <-).
    done.
  - eexists. split; [by apply Delete_in_flight|]. rewrite Get_run. cbn.
    destruct (Hdelete (currentTxStateDelta s) chaincodeID key) as (vh & -> & Hnil).
    by rewrite Hnil.
Qed.

(** *** Invariants *)

(** X8: outside a transaction the transaction delta is empty.  This holds
    of the manager that [NewState] builds, and every sequence of calls of
    [TxBegin], [TxFinish], [Set], [Delete], [Get], [GetHash],
    [ClearInMemoryChanges] and [AddChangesForPersistence] keeps it, up to
    and including a call that panics. *)
Theorem tx_delta_clean_invariant :
  (∀ impl s, NewState impl = inl s → tx_delta_clean s)
  ∧ (∀ ops s, tx_delta_clean s → tx_delta_clean (final (run_ops ops s))).
Proof.
  split.
  - intros impl s. unfold NewState.
    destruct (HashableState_Initialize impl) as [[e|] i]; [discriminate|].
    by intros [= <-].
  - intros ops s. apply (run_ops_invariant (λ _, true)); [|apply forallb_any].
    clear. intros op s _ Hclean. unfold tx_delta_clean in *.
    destruct (run_op_cases op s _ eq_refl)
      as [->|[(tx & _ & Hidle & ->)|[(ok & _ & Hrun)|[(d & _ & Hin & ->)|
          [(cc & k & c & i & _ & ->)|[(_ & i & ->)|[(n & wb & i & _ & ->)|(_ & ->)]]]]]]];
      cbn; try done.
    + intros _. by apply Hclean.
    + rewrite TxFinish_matching in Hrun by reflexivity. injection Hrun as <-.
      destruct ok; [|done]. by destruct (StateDelta_IsEmpty (currentTxStateDelta s)).
    + unfold prepared. by destruct (updateStateImpl s).
    + unfold prepared. by destruct (updateStateImpl s).
Qed.

(** X9: whenever the dirty flag is clear, the working set last handed to
    the store is the aggregate delta, or the store has no working set and
    the aggregate delta is empty.  This holds of the manager that [NewState]
    builds and is kept by every sequence of the calls listed in X8. *)
Theorem working_set_current_invariant :
  (∀ impl s, NewState impl = inl s → working_set_current s)
  ∧ (∀ ops s, working_set_current s → working_set_current (final (run_ops ops s))).
Proof.
  split.
  - intros impl s. unfold NewState.
    destruct (HashableState_Initialize impl) as [[e|] i]; [discriminate|].
    intros [= <-] _. by right.
  - intros ops s. apply (run_ops_invariant (λ _, true)); [|apply forallb_any].
    clear. intros op s _ Hcur. unfold working_set_current in *.
    destruct (run_op_cases op s _ eq_refl)
      as [->|[(tx & _ & Hidle & ->)|[(ok & _ & Hrun)|[(d & _ & Hin & ->)|
          [(cc & k & c & i & _ & ->)|[(_ & i & ->)|[(n & wb & i & _ & ->)|(_ & ->)]]]]]]];
      cbn; try done.
    + rewrite TxFinish_matching in Hrun by reflexivity. injection Hrun as <-.
      destruct ok; [|done].
      by destruct (StateDelta_IsEmpty (currentTxStateDelta s)).
    + unfold prepared. destruct (updateStateImpl s) eqn:Hflag; cbn; [by left|].
      rewrite Hflag. done.
    + unfold prepared. destruct (updateStateImpl s) eqn:Hflag; cbn; [by left|].
      rewrite Hflag. done.
    + intros _. by right.
Qed.

(** *** The lazy preparation *)

Lemma prepared_frame s :
  stateDelta (prepared s) = stateDelta s
  ∧ txStateDeltaHash (prepared s) = txStateDeltaHash s
  ∧ currentTxStateDelta (prepared s) = currentTxStateDelta s
  ∧ currentTxUUID (prepared s) = currentTxUUID s.
Proof. unfold prepared. by destruct (updateStateImpl s). Qed.

Lemma read_or_flush_step op s :
  is_read_or_flush op = true →
  ∃ s1, run_op op s = Returns tt s1
    ∧ prepareCount s1
      = (prepareCount s + if updateStateImpl s && is_flush op then 1 else 0)%nat
    ∧ updateStateImpl s1 = updateStateImpl s && negb (is_flush op)
    ∧ stateDelta s1 = stateDelta s
    ∧ txStateDeltaHash s1 = txStateDeltaHash s
    ∧ currentTxStateDelta s1 = currentTxStateDelta s
    ∧ currentTxUUID s1 = currentTxUUID s.
Proof.
  intros Hop. destruct (prepared_frame s) as (Hd & Hh & Ht & Hi).
  destruct op as [| | | |cc k c| | |n wb]; try discriminate;
    cbv [run_op mbind M_bind]; cbn [is_flush negb].
  - rewrite Get_run. rewrite andb_false_r, andb_true_r.
    destruct (if c then None else _) as [vh|]; cbn [mret M_ret];
      eexists; (split; [reflexivity|]); split_and!; try done;
      unfold prepareCount; cbn; lia.
  - rewrite GetHash_run. cbn [mret M_ret]. rewrite andb_false_r, andb_true_r.
    eexists. split; [reflexivity|].
    cbn [updateStateImpl stateDelta txStateDeltaHash currentTxStateDelta
         currentTxUUID log_call set_stateImpl].
    split_and!; try done; [apply prepareCount_prepared|apply prepared_flag].
  - rewrite AddChangesForPersistence_run. cbn [mret M_ret].
    rewrite andb_false_r, andb_true_r.
    eexists. split; [reflexivity|].
    cbn [updateStateImpl stateDelta txStateDeltaHash currentTxStateDelta
         currentTxUUID log_call set_stateImpl].
    split_and!; try done; [apply prepareCount_prepared|apply prepared_flag].
Qed.

(** X10: [GetHash], [AddChangesForPersistence] and [Get], in any number and
    order, never panic and share one preparation: [PrepareWorkingSet] is
    called once if the dirty flag was set and the sequence has a [GetHash]
    or an [AddChangesForPersistence], and not at all otherwise; the
    aggregate delta, the map of hashes and the transaction are left as they
    were. *)
Theorem lazy_preparation_shared ops s :
  forallb is_read_or_flush ops = true →
  let o := run_ops ops s in
  panicked o = false
  ∧ prepareCount (final o)
    = (prepareCount s + if updateStateImpl s && existsb is_flush ops then 1 else 0)%nat
  ∧ updateStateImpl (final o) = updateStateImpl s && negb (existsb is_flush ops)
  ∧ stateDelta (final o) = stateDelta s
  ∧ txStateDeltaHash (final o) = txStateDeltaHash s
  ∧ currentTxStateDelta (final o) = currentTxStateDelta s
  ∧ currentTxUUID (final o) = currentTxUUID s.
Proof.
  cbn zeta. revert s. induction ops as [|op ops IH]; intros s Hops.
  - cbn. rewrite andb_false_r, andb_true_r. split_and!; first [done | lia].
  - cbn [forallb] in Hops. apply andb_prop in Hops as [Hop Hops].
    rewrite run_ops_cons. cbn [existsb].
    destruct (read_or_flush_step op s Hop)
      as (s1 & -> & Hc1 & Hf1 & Hd1 & Hh1 & Ht1 & Hi1).
    destruct (IH s1 Hops) as (Hp & Hc & Hf & Hd & Hh & Ht & Hi).
    split_and!; try congruence.
    + rewrite Hc, Hc1, Hf1.
      destruct (updateStateImpl s), (is_flush op), (existsb is_flush ops); cbn; lia.
    + rewrite Hf, Hf1.
      by destruct (updateStateImpl s), (is_flush op), (existsb is_flush ops).
Qed.

(** X11: when the store fails to compute the hash, [GetHash] returns the nil
    hash with the store's error, whatever bytes came with the error; the
    dirty flag has been cleared and the working set prepared all the same,
    so a call that follows prepares nothing. *)
Theorem GetHash_error s hash e :
  (HashableState_ComputeCryptoHash (stateImpl (prepared s))).1 = (hash, Some e) →
  ∃ s', GetHash s = Returns (None, Some e) s'
    ∧ updateStateImpl s' = false
    ∧ prepareCount s'
      = (prepareCount s + if updateStateImpl s then 1 else 0)%nat
    ∧ stateDelta s' = stateDelta s
    ∧ prepareCount (final (GetHash s')) = prepareCount s'.
Proof.
  intros Herr. eexists. split; [rewrite GetHash_run; cbn zeta; by rewrite Herr|].
  split_and!.
  - apply prepared_flag.
  - apply prepareCount_prepared.
  - unfold prepared. cbn. by destruct (updateStateImpl s).
  - rewrite GetHash_run. cbn zeta. cbn [final].
    rewrite prepared_idle by apply prepared_flag. reflexivity.
Qed.

End ManagerRuns.

(** ** State transfer *)

Section StateTransferProperties.
Context {SD : StateDeltaOps} {HS : HashableState}.
Context {DB : OpenchainDB} {DBW : OpenchainDBWrites}.

Implicit Types (s : State) (db : DBHandle).

Lemma ApplyStateDelta_run s (delta : StateDelta) db :
  ApplyStateDelta delta db s =
    let prepared := HashableState_PrepareWorkingSet (stateImpl s) delta in
    let staged := HashableState_AddChangesForPersistence prepared [] in
    Returns (DB_Write db staged.1)
      (log_call CallAddChangesForPersistence
         (set_stateImpl staged.2
            (log_call (CallPrepareWorkingSet delta) (set_stateImpl prepared s)))).
Proof.
  run_calls. destruct (HashableState_AddChangesForPersistence _ _) as [wb i]. cbn.
  by destruct (DB_Write db wb) as [[e|] db'].
Qed.

Lemma DeleteState_run s db :
  DeleteState db s =
    Returns (DB_DeleteState db)
      (log_call CallClearWorkingSet
         (set_stateImpl (HashableState_ClearWorkingSet (stateImpl s))
            (set_txStateDeltaHash ∅ (set_stateDelta NewStateDelta s)))).
Proof. run_calls. by destruct (DB_DeleteState db) as [e db']. Qed.

(** X12: [ApplyStateDelta] hands the given delta to the store as its working
    set, has the store stage its changes into a fresh batch, writes that
    batch and returns the outcome of the write.  It goes around the
    manager's own bookkeeping: the aggregate delta, the transaction, the map
    of hashes and the dirty flag are left as they were, so on a manager whose
    flag is clear the next [GetHash] prepares nothing and the store hashes
    with the transferred delta as its working set.  A store that stages no
    history entries leaves the history log as it is. *)
Theorem ApplyStateDelta_bypasses_manager s (delta : StateDelta) db :
  let staged :=
    HashableState_AddChangesForPersistence
      (HashableState_PrepareWorkingSet (stateImpl s) delta) [] in
  ∃ s', ApplyStateDelta delta db s = Returns (DB_Write db staged.1) s'
    ∧ stateImpl s' = staged.2
    ∧ implCalls s'
      = CallAddChangesForPersistence :: CallPrepareWorkingSet delta :: implCalls s
    ∧ working_set_of (implCalls s') = Some delta
    ∧ stateDelta s' = stateDelta s
    ∧ currentTxStateDelta s' = currentTxStateDelta s
    ∧ currentTxUUID s' = currentTxUUID s
    ∧ txStateDeltaHash s' = txStateDeltaHash s
    ∧ updateStateImpl s' = updateStateImpl s
    ∧ (updateStateImpl s = false →
       prepareCount (final (GetHash s')) = prepareCount s'
       ∧ working_set_of (implCalls (final (GetHash s'))) = Some delta)
    ∧ (impl_leaves_history → ∀ log, history_commit staged.1 log = log).
Proof.
  cbn zeta. eexists. split; [apply ApplyStateDelta_run|].
  cbn. split_and!; try done.
  intros Hclean. rewrite GetHash_run. cbn zeta. cbn [final].
  rewrite prepared_idle by done. done.
Qed.

End StateTransferProperties.

(** ** The content of the history log *)

Lemma encodeStateDeltaKey_inj (m n : Z) :
  is_uint64 m → is_uint64 n → encodeStateDeltaKey m = encodeStateDeltaKey n → m = n.
Proof.
  unfold encodeStateDeltaKey. intros Hm Hn Heq.
  rewrite <- (be_value_encodeUint64 m Hm), <- (be_value_encodeUint64 n Hn).
  by rewrite Heq.
Qed.

Section HistoryContent.
Context {SD : StateDeltaOps} {HS : HashableState}.

Implicit Types (s : State) (log : gmap (list byte) (list byte)).

(** The bytes stored for a block staged by the manager in state [s]. *)
Let entry s : list byte := default [] (StateDelta_Marshal (stateDelta s)).

Lemma stage_and_commit_lookup_new s blockNumber log :
  impl_leaves_history → is_uint64 blockNumber →
  stage_and_commit s blockNumber log !! encodeStateDeltaKey blockNumber = Some (entry s).
Proof.
  intros Himpl Hn. rewrite stage_and_commit_log by done. cbn zeta.
  case_bool_decide as Hge; [|by rewrite lookup_insert_eq].
  unfold historyStateDeltaSize, wrap64, is_uint64 in *.
  rewrite Z.mod_small by lia. rewrite lookup_delete_ne, lookup_insert_eq; [done|].
  intros Heq. apply encodeStateDeltaKey_inj in Heq; unfold is_uint64; lia.
Qed.

Lemma stage_and_commit_lookup_old s blockNumber log :
  impl_leaves_history → is_uint64 blockNumber → blockNumber >= historyStateDeltaSize →
  stage_and_commit s blockNumber log
    !! encodeStateDeltaKey (blockNumber - historyStateDeltaSize) = None.
Proof.
  intros Himpl Hn Hge. rewrite stage_and_commit_log by done. cbn zeta.
  rewrite bool_decide_eq_true_2 by done.
  unfold historyStateDeltaSize, wrap64, is_uint64 in *.
  rewrite Z.mod_small by lia. apply lookup_delete_eq.
Qed.

Lemma stage_and_commit_lookup_other s blockNumber log key :
  impl_leaves_history → is_uint64 blockNumber →
  key ≠ encodeStateDeltaKey blockNumber →
  (blockNumber < historyStateDeltaSize
   ∨ key ≠ encodeStateDeltaKey (blockNumber - historyStateDeltaSize)) →
  stage_and_commit s blockNumber log !! key = log !! key.
Proof.
  intros Himpl Hn Hnew Hold. rewrite stage_and_commit_log by done. cbn zeta.
  case_bool_decide as Hge.
  - destruct Hold as [Hlt|Hold]; [lia|].
    unfold historyStateDeltaSize, wrap64, is_uint64 in *.
    rewrite Z.mod_small by lia. by rewrite lookup_delete_ne, lookup_insert_ne.
  - by rewrite lookup_insert_ne.
Qed.

(** X13: what staging and committing block [blockNumber] does to the
    history log, for a store that stages no history entries: the entry of
    the block holds the aggregate delta as serialized at staging time, the
    entry of block [blockNumber - 500] is gone, and every other entry is as
    it was.  In particular, once block [500 + k] is committed the entry of
    block [k] is not found. *)
Theorem stage_and_commit_effect s blockNumber log :
  impl_leaves_history → is_uint64 blockNumber →
  let log' := stage_and_commit s blockNumber log in
  log' !! encodeStateDeltaKey blockNumber
    = Some (default [] (StateDelta_Marshal (stateDelta s)))
  ∧ (blockNumber >= historyStateDeltaSize →
     log' !! encodeStateDeltaKey (blockNumber - historyStateDeltaSize) = None)
  ∧ (∀ key, key ≠ encodeStateDeltaKey blockNumber →
       (blockNumber < historyStateDeltaSize
        ∨ key ≠ encodeStateDeltaKey (blockNumber - historyStateDeltaSize)) →
       log' !! key = log !! key)
  ∧ (∀ k, 0 <= k → blockNumber = historyStateDeltaSize + k →
       log' !! encodeStateDeltaKey k = None).
Proof.
  intros Himpl Hn. cbn zeta. split_and!.
  - by apply stage_and_commit_lookup_new.
  - by apply stage_and_commit_lookup_old.
  - intros key. by apply stage_and_commit_lookup_other.
  - intros k Hk ->.
    pose proof (stage_and_commit_lookup_old s (historyStateDeltaSize + k) log
                  Himpl Hn ltac:(lia)) as Hold.
    by replace (historyStateDeltaSize + k - historyStateDeltaSize) with k in Hold by lia.
Qed.

Lemma history_of_cons s blockNumber (blocks : list (Z * State)) log :
  history_of ((blockNumber, s) :: blocks) log
  = history_of blocks (stage_and_commit s blockNumber log).
Proof. reflexivity. Qed.

Lemma history_of_keeps (states : list State) (first m : Z) log (v : list byte) :
  impl_leaves_history →
  0 <= m < first → first + Z.of_nat (length states) <= 2 ^ 64 →
  first + Z.of_nat (length states) - historyStateDeltaSize <= m →
  log !! encodeStateDeltaKey m = Some v →
  history_of (zip (seqZ first (Z.of_nat (length states))) states) log
    !! encodeStateDeltaKey m = Some v.
Proof.
  intros Himpl. revert first log.
  induction states as [|s states IH]; intros first log Hm Hlast Hwin Hv; [done|].
  cbn [length] in *. rewrite Nat2Z.inj_succ in *.
  rewrite seqZ_cons by lia. cbn [zip zip_with]. rewrite history_of_cons.
  replace (Z.pred (Z.succ (Z.of_nat (length states))))
    with (Z.of_nat (length states)) by lia.
  unfold historyStateDeltaSize in *.
  apply IH; [lia|lia|lia|].
  rewrite stage_and_commit_lookup_other; [done|done|unfold is_uint64; lia|..].
  - intros Heq. apply encodeStateDeltaKey_inj in Heq; unfold is_uint64; lia.
  - destruct (Z.lt_ge_cases first 500) as [Hlt|Hge]; [by left|right].
    unfold historyStateDeltaSize.
    intros Heq. apply encodeStateDeltaKey_inj in Heq; unfold is_uint64; lia.
Qed.

Lemma history_of_content (states : list State) (first : Z) log (i : nat) s :
  impl_leaves_history →
  0 <= first → first + Z.of_nat (length states) <= 2 ^ 64 →
  states !! i = Some s →
  Z.of_nat (length states) - historyStateDeltaSize <= Z.of_nat i →
  history_of (zip (seqZ first (Z.of_nat (length states))) states) log
    !! encodeStateDeltaKey (first + Z.of_nat i) = Some (entry s).
Proof.
  intros Himpl. revert first log i.
  induction states as [|s0 states IH]; intros first log i Hfirst Hlast Hi Hwin;
    [done|].
  cbn [length] in *. rewrite Nat2Z.inj_succ in *.
  rewrite seqZ_cons by lia. cbn [zip zip_with]. rewrite history_of_cons.
  replace (Z.pred (Z.succ (Z.of_nat (length states))))
    with (Z.of_nat (length states)) by lia.
  unfold historyStateDeltaSize in *.
  destruct i as [|i]; cbn in Hi.
  - injection Hi as ->. rewrite Z.add_0_r.
    apply history_of_keeps; [done|lia|lia|unfold historyStateDeltaSize; lia|].
    apply stage_and_commit_lookup_new; [done|unfold is_uint64; lia].
  - replace (first + Z.of_nat (S i)) with (Z.succ first + Z.of_nat i) by lia.
    apply IH; [lia|lia|done|unfold historyStateDeltaSize; lia].
Qed.

(** X14: when the blocks 0, 1, ..., N-1 are staged and committed in this
    order on an empty log, by a store that stages no history entries, the
    log holds exactly the last 500 of them: the entry of each of these blocks
    is the aggregate delta serialized when the block was staged, and no other
    block number has an entry. *)
Theorem history_of_consecutive_content (states : list State) :
  impl_leaves_history → Z.of_nat (length states) <= 2 ^ 64 →
  let N := Z.of_nat (length states) in
  let log := history_of (zip (seqZ 0 N) states) ∅ in
  (∀ (i : nat) s, states !! i = Some s → N - historyStateDeltaSize <= Z.of_nat i →
     log !! encodeStateDeltaKey (Z.of_nat i)
     = Some (default [] (StateDelta_Marshal (stateDelta s))))
  ∧ (∀ m, is_uint64 m →
       is_Some (log !! encodeStateDeltaKey m)
       ↔ 0 <= m ∧ N - historyStateDeltaSize <= m < N).
Proof.
  intros Himpl Hlen. cbn zeta. split.
  - intros i s Hi Hwin.
    apply (history_of_content states 0 ∅ i s Himpl); [lia|lia|done|done].
  - intros m Hm. split.
    + intros Hsome.
      assert (history_in_window (0 + Z.of_nat (length states))
                (history_of (zip (seqZ 0 (Z.of_nat (length states))) states) ∅)) as Hwin.
      { apply history_of_consecutive; [done|lia|lia|].
        intros key [v Hv]. by rewrite lookup_empty in Hv. }
      destruct (Hwin _ Hsome) as (m' & Heq & Hm0 & Hm').
      apply encodeStateDeltaKey_inj in Heq; [subst m'; lia|done|].
      unfold is_uint64, historyStateDeltaSize in *. lia.
    + intros (Hm0 & Hlo & Hhi).
      destruct (lookup_lt_is_Some_2 states (Z.to_nat m) ltac:(lia)) as [s Hs].
      exists (default [] (StateDelta_Marshal (stateDelta s))).
      replace m with (0 + Z.of_nat (Z.to_nat m)) at 1 by lia.
      apply (history_of_content states 0 ∅ (Z.to_nat m) s Himpl); [lia|lia|done|lia].
Qed.

End HistoryContent.

(** ** The commit sequence of a block *)

Section BlockCycle.
Context {SD : StateDeltaOps} {HS : HashableState}.

(** X15: the commit sequence of a block, [GetHash], then
    [AddChangesForPersistence], then [ClearInMemoryChanges], never panics
    and leaves the manager clean for the next block: the aggregate delta and
    the map of hashes are empty, the dirty flag is clear, the store has no
    working set, and [PrepareWorkingSet] was called once if the flag was set
    and not at all otherwise.  The batch staged in between carries the
    aggregate delta as it was before the sequence. *)
Theorem block_commit_sequence (s : State) (blockNumber : Z) (writeBatch : WriteBatch) :
  let o := run_ops [OpGetHash; OpAddChangesForPersistence blockNumber writeBatch;
                    OpClearInMemoryChanges] s in
  panicked o = false
  ∧ stateDelta (final o) = NewStateDelta
  ∧ txStateDeltaHash (final o) = ∅
  ∧ updateStateImpl (final o) = false
  ∧ working_set_of (implCalls (final o)) = None
  ∧ prepareCount (final o)
    = (prepareCount s + if updateStateImpl s then 1 else 0)%nat
  ∧ currentTxUUID (final o) = currentTxUUID s
  ∧ currentTxStateDelta (final o) = currentTxStateDelta s
  ∧ ∃ hash s1, GetHash s = Returns hash s1
      ∧ stateDelta s1 = stateDelta s
      ∧ prepareCount (final (AddChangesForPersistence blockNumber writeBatch s1))
        = prepareCount s1
      ∧ PutCF StateDeltaCF (encodeStateDeltaKey blockNumber)
          (StateDelta_Marshal (stateDelta s))
          ∈ default [] (result (AddChangesForPersistence blockNumber writeBatch s1)).
Proof.
  cbn zeta. rewrite run_ops_cons. cbv [run_op mbind M_bind].
  rewrite GetHash_run. cbn [mret M_ret]. cbv zeta.
  set (s1 := log_call CallComputeCryptoHash (set_stateImpl _ (prepared s))).
  assert (updateStateImpl s1 = false) as Hflag by apply prepared_flag.
  assert (stateDelta s1 = stateDelta s) as Hdelta by apply prepared_frame.
  assert (prepareCount s1 = (prepareCount s + if updateStateImpl s then 1 else 0)%nat)
    as Hcount by apply prepareCount_prepared.
  destruct (prepared_frame s) as (_ & _ & Htx & Hid).
  rewrite run_ops_cons. cbv [run_op mbind M_bind].
  rewrite AddChangesForPersistence_run. cbn [mret M_ret]. cbv zeta.
  rewrite (prepared_idle s1 Hflag).
  rewrite run_ops_cons. cbn.
  split_and!; try done.
  eexists _, s1. split; [reflexivity|]. split; [done|].
  rewrite AddChangesForPersistence_run. cbv zeta. cbn [final result default].
  rewrite (prepared_idle s1 Hflag). split; [reflexivity|].
  rewrite Hdelta. apply elem_of_app. right. apply elem_of_app. left.
  apply list_elem_of_singleton. reflexivity.
Qed.

End BlockCycle.

(** ** The further theorems on concrete runs of the test doubles *)

Lemma Double_store_leaves_history :
  @impl_leaves_history Double.delta Double.store.
Proof.
  intros i wb log. cbn. unfold history_commit. rewrite foldl_app.
  generalize (foldl history_apply log wb). unfold Double.store_ops.
  induction (map_to_list (Double.workingSet i)) as [|[[cc k] [v|]] l IH];
    intros log'; cbn; [done|apply IH|apply IH].
Qed.

Lemma encodeStateDeltaKey_bijection_witness :
  (encodeStateDeltaKey 7 = encodeStateDeltaKey 7 → 7 = 7)
  ∧ ∃ n, decodeStateDeltaKey (encodeStateDeltaKey 7) = Some n
         ∧ encodeStateDeltaKey n = encodeStateDeltaKey 7.
Proof.
  destruct encodeStateDeltaKey_bijection as (Hinj & Hsurj).
  assert (is_uint64 7) as H7 by (unfold is_uint64; lia).
  split; [exact (Hinj 7 7 H7 H7)|].
  destruct (Hsurj (encodeStateDeltaKey 7) eq_refl) as (n & _ & Hdec & Henc).
  by exists n.
Defined.

Lemma transaction_rollback_witness :
  let ops := [OpSet "cc1" "k1" (Double.bytes_of "other"); OpDelete "cc1" "k7"] in
  currentTxUUID Double.after_t1 = ""
  ∧ run_ops (OpTxBegin "t9" :: ops ++ [OpTxFinish "t9" false]) Double.after_t1
    = Returns tt Double.after_t1.
Proof.
  cbn zeta. split; [by_evaluation|].
  apply (transaction_rollback Double.after_t1 "t9");
    [by_evaluation|by_evaluation|discriminate|reflexivity].
Defined.

Lemma transaction_commit_witness :
  let ops := [OpSet "cc1" "k1" (Double.bytes_of "other"); OpDelete "cc1" "k7"] in
  currentTxUUID Double.after_t1 = ""
  ∧ ∃ s', run_ops (OpTxBegin "t9" :: ops ++ [OpTxFinish "t9" true]) Double.after_t1
          = Returns tt s'
      ∧ updateStateImpl s' = true
      ∧ stateDelta s' !! ("cc1"%string, "k1"%string) = Some (Double.bytes_of "other")
      ∧ stateDelta s' !! ("cc1"%string, "k7"%string) = Some None.
Proof.
  cbn zeta. split; [by_evaluation|].
  eexists. split.
  - apply (transaction_commit Double.after_t1 "t9");
      [by_evaluation|discriminate|reflexivity].
  - cbn zeta. split_and!; by_evaluation.
Defined.

Lemma transactions_leave_store_witness :
  let ops := [OpTxBegin "a"; OpSet "cc1" "k1" None; OpTxBegin "b"; OpTxFinish "a" true] in
  panicked (run_ops ops Double.after_t1) = true
  ∧ stateImpl (final (run_ops ops Double.after_t1)) = stateImpl Double.after_t1
  ∧ implCalls (final (run_ops ops Double.after_t1)) = implCalls Double.after_t1.
Proof.
  cbn zeta. split; [by_evaluation|].
  destruct (transactions_leave_store Double.after_t1
              [OpTxBegin "a"; OpSet "cc1" "k1" None; OpTxBegin "b"; OpTxFinish "a" true]
              eq_refl) as (Himpl & Hcalls & _).
  by split.
Defined.

Lemma TxBegin_empty_id_starts_nothing_witness :
  currentTxUUID Double.after_t1 = ""
  ∧ TxBegin "" Double.after_t1 = Returns tt Double.after_t1
  ∧ panicked (run_ops [OpTxBegin ""; OpSet "cc1" "k1" None] Double.after_t1) = true.
Proof.
  assert (currentTxUUID Double.after_t1 = "") as Hidle by by_evaluation.
  destruct (TxBegin_empty_id_starts_nothing Double.after_t1 Hidle) as (Hbegin & Hset & _).
  split_and!; [exact Hidle|exact Hbegin|apply Hset].
Defined.

Lemma read_your_own_writes_witness :
  currentTxUUID Double.in_t2 ≠ ""
  ∧ (∃ s1, Set_ "cc1" "k1" (Double.bytes_of "new") Double.in_t2 = Returns None s1
       ∧ Get "cc1" "k1" false s1 = Returns (Double.bytes_of "new", None) s1)
  ∧ (∃ s1, Delete "cc1" "k1" Double.in_t2 = Returns None s1
       ∧ Get "cc1" "k1" false s1 = Returns (None, None) s1).
Proof.
  assert (currentTxUUID Double.in_t2 ≠ "") as Hin by (vm_compute; discriminate).
  split; [exact Hin|].
  apply (read_your_own_writes (SD := Double.delta) (HS := Double.store));
    [| |exact Hin].
  - intros delta cc k v. exists v. split; [apply lookup_insert_eq|reflexivity].
  - intros delta cc k. exists None. split; [apply lookup_insert_eq|reflexivity].
Defined.

Lemma tx_delta_clean_invariant_witness :
  NewState (SD := Double.delta) (HS := Double.store) Double.emptyStore = inl Double.fresh
  ∧ tx_delta_clean Double.fresh
  ∧ tx_delta_clean
      (final (run_ops [OpTxBegin "t1"; OpSet "cc1" "k1" None; OpGetHash;
                       OpTxFinish "t1" true; OpSet "cc1" "k2" None] Double.fresh)).
Proof.
  destruct (tx_delta_clean_invariant (SD := Double.delta) (HS := Double.store))
    as (Hnew & Hrun).
  assert (NewState (SD := Double.delta) (HS := Double.store) Double.emptyStore = inl Double.fresh) as Hfresh by reflexivity.
  split_and!; [exact Hfresh|exact (Hnew _ _ Hfresh)|].
  apply Hrun. exact (Hnew _ _ Hfresh).
Defined.

Lemma working_set_current_invariant_witness :
  NewState (SD := Double.delta) (HS := Double.store) Double.emptyStore = inl Double.fresh
  ∧ working_set_current Double.fresh
  ∧ working_set_current
      (final (run_ops [OpTxBegin "t1"; OpSet "cc1" "k1" None; OpTxFinish "t1" true;
                       OpGetHash; OpClearInMemoryChanges] Double.fresh)).
Proof.
  destruct (working_set_current_invariant (SD := Double.delta) (HS := Double.store))
    as (Hnew & Hrun).
  assert (NewState (SD := Double.delta) (HS := Double.store) Double.emptyStore = inl Double.fresh) as Hfresh by reflexivity.
  split_and!; [exact Hfresh|exact (Hnew _ _ Hfresh)|].
  apply Hrun. exact (Hnew _ _ Hfresh).
Defined.

Lemma lazy_preparation_shared_witness :
  let ops := [OpGetHash; OpGet "cc1" "k9" false; OpAddChangesForPersistence 3 [];
              OpGetHash] in
  updateStateImpl Double.after_t1 = true
  ∧ panicked (run_ops ops Double.after_t1) = false
  ∧ prepareCount (final (run_ops ops Double.after_t1)) = 1%nat
  ∧ updateStateImpl (final (run_ops ops Double.after_t1)) = false.
Proof.
  cbn zeta.
  destruct (lazy_preparation_shared
              [OpGetHash; OpGet "cc1" "k9" false; OpAddChangesForPersistence 3 [];
               OpGetHash] Double.after_t1 eq_refl) as (Hp & Hc & Hf & _).
  split_and!; [by_evaluation|exact Hp|rewrite Hc; by_evaluation|rewrite Hf; by_evaluation].
Defined.

Lemma GetHash_error_witness :
  ∃ s', GetHash DoubleTransfer.failing = Returns (None, Some "hash failed"%string) s'
    ∧ updateStateImpl s' = false
    ∧ prepareCount s' = 1%nat.
Proof.
  destruct (GetHash_error DoubleTransfer.failing None "hash failed" eq_refl)
    as (s' & Hrun & Hflag & Hcount & _).
  exists s'. split_and!; [exact Hrun|exact Hflag|rewrite Hcount; reflexivity].
Defined.

Lemma ApplyStateDelta_bypasses_manager_witness :
  let db := Double.mkDatabase ∅ None in
  let s := Double.exec GetHash Double.after_t1 in
  updateStateImpl s = false
  ∧ ∃ s', ApplyStateDelta (DBW := DoubleTransfer.database_writes)
            (stateDelta Double.in_t2) db s = Returns (None, db) s'
      ∧ stateDelta s' = stateDelta s
      ∧ prepareCount (final (GetHash s')) = prepareCount s'.
Proof.
  cbn zeta.
  assert (updateStateImpl (Double.exec GetHash Double.after_t1) = false) as Hclean
    by by_evaluation.
  split; [exact Hclean|].
  destruct (ApplyStateDelta_bypasses_manager (DBW := DoubleTransfer.database_writes)
              (Double.exec GetHash Double.after_t1) (stateDelta Double.in_t2)
              (Double.mkDatabase ∅ None))
    as (s' & Hrun & _ & _ & _ & Hdelta & _ & _ & _ & _ & Hnext & Hlog).
  exists s'. split_and!; [|exact Hdelta|exact (proj1 (Hnext Hclean))].
  rewrite Hrun. f_equal; cbn; by rewrite ?(Hlog Double_store_leaves_history ∅).
Defined.

Lemma stage_and_commit_effect_witness :
  let log := stage_and_commit Double.after_t1 3 ∅ in
  let log' := stage_and_commit Double.fresh 503 log in
  is_uint64 503
  ∧ log' !! encodeStateDeltaKey 503 = Some []
  ∧ log' !! encodeStateDeltaKey 3 = None.
Proof.
  cbn zeta. assert (is_uint64 503) as H503 by (unfold is_uint64; lia).
  destruct (stage_and_commit_effect Double.fresh 503
              (stage_and_commit Double.after_t1 3 ∅) Double_store_leaves_history H503)
    as (Hnew & Hold & _).
  split_and!; [exact H503|exact Hnew|].
  apply (Hold ltac:(unfold historyStateDeltaSize; lia)).
Defined.

Lemma history_of_consecutive_content_witness :
  let states := [Double.fresh; Double.after_t1; Double.fresh] in
  let log := history_of (zip (seqZ 0 3) states) ∅ in
  log !! encodeStateDeltaKey 1 = Some (Double.marshal (stateDelta Double.after_t1))
  ∧ ¬ is_Some (log !! encodeStateDeltaKey 3).
Proof.
  cbn zeta.
  destruct (history_of_consecutive_content [Double.fresh; Double.after_t1; Double.fresh]
              Double_store_leaves_history ltac:(cbn; lia)) as (Hcontent & Hexact).
  split.
  - apply (Hcontent 1%nat Double.after_t1 eq_refl).
    unfold historyStateDeltaSize. cbn. lia.
  - intros Hsome. apply (Hexact 3) in Hsome; [cbn in Hsome; lia|].
    unfold is_uint64. lia.
Defined.
